(** * rag-demo: chunking, index construction, retrieval and conversation

    A shallow embedding of the Python sources [step2_vector_database.py]
    (class [VectorDatabase]) and [step3_qa_system.py] (class [RAGChatbot]),
    with the properties of the specification stated over it.

    Python strings are sequences of Unicode code points, so that [len],
    [strip] and [split] count and cut what Python counts and cuts.
    Exceptions are values: a computation that may raise returns a [result]. *)

From Stdlib Require Import String Ascii Bool ZArith NArith QArith Lia List
  Permutation.
Import ListNotations.
Close Scope Q_scope.
Open Scope nat_scope.

Set Implicit Arguments.

(** ** Python values *)

Module Py.

(** A character is a code point; a [str] is a list of them. *)
Definition char := N.
Definition str := list char.

(** ASCII literals, for readable examples. *)
Definition lit (s : string) : str :=
  map N_of_ascii (list_ascii_of_string s).

Definition NL : char := 10%N.
Definition HASH : char := 35%N.

(** [str.isspace] on one code point (CPython's [Py_UNICODE_ISSPACE]). *)
Definition isspace (c : char) : bool :=
  ((9 <=? c) && (c <=? 13) || (28 <=? c) && (c <=? 32)
   || (c =? 133) || (c =? 160) || (c =? 5760)
   || (8192 <=? c) && (c <=? 8202)
   || (c =? 8232) || (c =? 8233) || (c =? 8239) || (c =? 8287)
   || (c =? 12288))%N.

(** [s.lstrip()], [s.rstrip()], [s.strip()]. *)
Fixpoint lstrip (s : str) : str :=
  match s with
  | c :: t => if isspace c then lstrip t else s
  | [] => []
  end.

Definition rstrip (s : str) : str := rev (lstrip (rev s)).

Definition strip (s : str) : str := rstrip (lstrip s).

(** [s.lstrip(c)] for a one-character argument. *)
Fixpoint lstrip_char (c : char) (s : str) : str :=
  match s with
  | x :: t => if (x =? c)%N then lstrip_char c t else s
  | [] => []
  end.

(** [s.startswith(c)] for a one-character argument. *)
Definition startswith_char (c : char) (s : str) : bool :=
  match s with
  | x :: _ => (x =? c)%N
  | [] => false
  end.

(** [s.split(sep)] for a one-character separator: never the empty list. *)
Fixpoint split (sep : char) (s : str) : list str :=
  match s with
  | [] => [[]]
  | c :: t =>
      if (c =? sep)%N then [] :: split sep t
      else match split sep t with
           | h :: r => (c :: h) :: r
           | [] => [[c]]
           end
  end.

(** [sep.join(parts)]. *)
Fixpoint join (sep : str) (parts : list str) : str :=
  match parts with
  | [] => []
  | [x] => x
  | x :: r => x ++ sep ++ join sep r
  end.

(** Truthiness of a sequence: [if xs:]. *)
Definition truthy {A} (xs : list A) : bool :=
  match xs with [] => false | _ :: _ => true end.

(** An exception: its class name and [str(e)]. *)
Record exn := { exn_class : string; exn_msg : str }.

Inductive result (A : Type) : Type :=
| Ok (a : A)
| Raise (e : exn).
Arguments Ok {A} a.
Arguments Raise {A} e.

Definition bind {A B} (r : result A) (k : A -> result B) : result B :=
  match r with
  | Ok a => k a
  | Raise e => Raise e
  end.

Definition is_raise {A} (r : result A) : bool :=
  match r with Ok _ => false | Raise _ => true end.

(** A [for] loop whose body may raise. *)
Fixpoint foldM {A S} (body : S -> A -> result S) (xs : list A) (s : S)
  : result S :=
  match xs with
  | [] => Ok s
  | x :: r => bind (body s x) (foldM body r)
  end.

Definition IndexError : exn :=
  {| exn_class := "IndexError"; exn_msg := lit "list index out of range" |}.
Definition ValueError (msg : string) : exn :=
  {| exn_class := "ValueError"; exn_msg := lit msg |}.
Definition AssertionError : exn :=
  {| exn_class := "AssertionError"; exn_msg := [] |}.

(** [xs[0]]. *)
Definition head {A} (xs : list A) : result A :=
  match xs with
  | x :: _ => Ok x
  | [] => Raise IndexError
  end.

(** [xs[i]] for a Python integer [i]: negative indices count from the end. *)
Definition index {A} (xs : list A) (i : Z) : result A :=
  let n := Z.of_nat (length xs) in
  let j := if (i <? 0)%Z then (n + i)%Z else i in
  if ((0 <=? j) && (j <? n))%Z
  then match nth_error xs (Z.to_nat j) with
       | Some x => Ok x
       | None => Raise IndexError
       end
  else Raise IndexError.

(** [min(xs)] on integers that are counts. *)
Definition min (xs : list nat) : result nat :=
  match xs with
  | x :: r => Ok (fold_left Nat.min r x)
  | [] => Raise (ValueError "min() arg is an empty sequence")
  end.

(** [xs[-n:]] for a positive [n]. *)
Definition last_n {A} (n : nat) (xs : list A) : list A :=
  skipn (length xs - n) xs.

End Py.

Import Py.

Notation "x <- c ;; k" := (bind c (fun x => k))
  (at level 61, c at next level, right associativity).

Notation "' pat <- c ;; k" := (bind c (fun x => match x with pat => k end))
  (at level 61, pat pattern, c at next level, right associativity).

(** Mapping over a result. *)
Notation "f <$$> r" := (bind r (fun x => Ok (f x)))
  (at level 61, right associativity).

(** ** The chunker: [VectorDatabase.process_md_content] *)

Module Chunker.

(** An entry of [raw_sections]. *)
Record section := {
  sec_text : str;
  sec_title : str;
  sec_level : nat
}.

(** The [metadata] dictionary of a returned document. *)
Record metadata := {
  file_path : str;
  section_title : str;
  combined_section_titles : str;
  section_level : nat;
  sections_count : nat;
  char_count : nat
}.

(** A returned document. *)
Record doc := {
  text : str;
  source : str;
  title : str;
  combined_titles : str;
  level : nat;
  meta : metadata
}.

(** The locals of the first loop. *)
Record scan := {
  raw_sections : list section;
  current_section : list str;
  current_title : str;
  scan_level : nat
}.

(** [if current_section and current_title: ... raw_sections.append(...)]:
    the sections so far, after the pending one, if any, is saved. *)
Definition save_pending (st : scan) : list section :=
  if truthy (current_section st) && truthy (current_title st) then
    let content := strip (join [NL] (current_section st)) in
    if truthy content then
      raw_sections st ++
        [{| sec_text := content;
            sec_title := current_title st;
            sec_level := scan_level st |}]
    else raw_sections st
  else raw_sections st.

Definition is_heading (line : str) : bool :=
  startswith_char HASH (strip line).

(** The body of [for line in lines]. *)
Definition scan_line (st : scan) (line : str) : scan :=
  let line_stripped := strip line in
  if startswith_char HASH line_stripped then
    {| raw_sections := save_pending st;
       current_section := [line];
       current_title := line_stripped;
       scan_level :=
         length line_stripped - length (lstrip_char HASH line_stripped) |}
  else
    {| raw_sections := raw_sections st;
       current_section := current_section st ++ [line];
       current_title := current_title st;
       scan_level := scan_level st |}.

Definition scan_init : scan :=
  {| raw_sections := []; current_section := [];
     current_title := []; scan_level := 0 |}.

(** The first half of the function, from the lines on. *)
Definition sections_of_lines (lines : list str) : list section :=
  save_pending (fold_left scan_line lines scan_init).

Definition split_sections (md_text : str) : list section :=
  sections_of_lines (split NL md_text).

(** The locals of the second loop. *)
Record merge := {
  documents : list doc;
  current_chunk : str;
  current_titles : list str;
  current_levels : list nat
}.

Definition SEP : str := [NL; NL].
Definition BAR : str := lit " | ".

(** The dictionary built when a chunk is closed. *)
Definition make_doc (fp : str) (st : merge) : result doc :=
  main_title <- head (current_titles st) ;;
  let combined :=
    if 1 <? length (current_titles st)
    then join BAR (current_titles st) else main_title in
  lv <- Py.min (current_levels st) ;;
  Ok {| text := current_chunk st;
        source := lit "markdown";
        title := main_title;
        combined_titles := combined;
        level := lv;
        meta := {| file_path := fp;
                   section_title := main_title;
                   combined_section_titles := combined;
                   section_level := lv;
                   sections_count := length (current_titles st);
                   char_count := length (current_chunk st) |} |}.

Definition restart (docs : list doc) (s : section) : merge :=
  {| documents := docs;
     current_chunk := sec_text s;
     current_titles := [sec_title s];
     current_levels := [sec_level s] |}.

(** The body of [for i, section in enumerate(raw_sections)]. *)
Definition merge_section (fp : str) (min_chunk_size : Z)
  (st : merge) (s : section) : result merge :=
  if negb (truthy (current_chunk st)) then Ok (restart (documents st) s)
  else
    let potential_chunk := current_chunk st ++ SEP ++ sec_text s in
    if (min_chunk_size <=? Z.of_nat (length (current_chunk st)))%Z
       || (min_chunk_size * 2 <? Z.of_nat (length potential_chunk))%Z
    then
      d <- make_doc fp st ;;
      Ok (restart (documents st ++ [d]) s)
    else
      Ok {| documents := documents st;
            current_chunk := potential_chunk;
            current_titles := current_titles st ++ [sec_title s];
            current_levels := current_levels st ++ [sec_level s] |}.

Definition merge_init : merge :=
  {| documents := []; current_chunk := [];
     current_titles := []; current_levels := [] |}.

(** [if current_chunk: ... documents.append(doc)] and [return documents]. *)
Definition flush (fp : str) (st : merge) : result (list doc) :=
  if truthy (current_chunk st) then
    d <- make_doc fp st ;; Ok (documents st ++ [d])
  else Ok (documents st).

(** The second half of the function, from [raw_sections] on. *)
Definition merge_sections (fp : str) (min_chunk_size : Z)
  (raw : list section) : result (list doc) :=
  if negb (truthy raw) then Ok []
  else
    st <- foldM (merge_section fp min_chunk_size) raw merge_init ;;
    flush fp st.

Definition chunks_of_lines (lines : list str) (fp : str)
  (min_chunk_size : Z) : result (list doc) :=
  merge_sections fp min_chunk_size (sections_of_lines lines).

Definition process_md_content (md_text : str) (fp : str)
  (min_chunk_size : Z) : result (list doc) :=
  chunks_of_lines (split NL md_text) fp min_chunk_size.

(** The default [min_chunk_size]. *)
Definition default_min_chunk_size : Z := 2000.

End Chunker.

(** Sample inputs. *)
Module Samples.

(** ["# A\nfoo\n# B\nbar"]. *)
Definition two_sections : str :=
  lit "# A" ++ [NL] ++ lit "foo" ++ [NL] ++ lit "# B" ++ [NL] ++ lit "bar".

(** ["#\n#\n#"]: three sections of one character each. *)
Definition three_hashes : str := [HASH; NL; HASH; NL; HASH].

(** ["intro\n# A\nfoo"]: one line before the first heading. *)
Definition with_preamble : str :=
  lit "intro" ++ [NL] ++ lit "# A" ++ [NL] ++ lit "foo".

End Samples.

(** ** What the chunker computes, group by group

    [doc_of_group] follows the specification's words: the document of a run of
    consecutive sections that were merged into one chunk. The theorems below
    compare it with what the two loops of the source build. *)

Module ChunkerSpec.
Import Chunker.

Definition min_level (g : list section) : nat :=
  match map sec_level g with
  | x :: r => fold_left Nat.min r x
  | [] => 0
  end.

Definition doc_of_group (fp : str) (g : list section) : doc :=
  let main_title := hd [] (map sec_title g) in
  let combined :=
    if 1 <? length g then join BAR (map sec_title g) else main_title in
  let body := join SEP (map sec_text g) in
  {| text := body;
     source := lit "markdown";
     title := main_title;
     combined_titles := combined;
     level := min_level g;
     meta := {| file_path := fp;
                section_title := main_title;
                combined_section_titles := combined;
                section_level := min_level g;
                sections_count := length g;
                char_count := length body |} |}.

Definition total_char_count (docs : list doc) : nat :=
  list_sum (map (fun d => char_count (meta d)) docs).

Definition total_section_length (ss : list section) : nat :=
  list_sum (map (fun s => length (sec_text s)) ss).

Definition nonempty_text (s : section) : Prop := sec_text s <> [].

(** The loop invariant of the merge: the sections consumed so far are the
    closed groups followed by the open one, which the three accumulators
    describe. *)
Definition grouped (fp : str) (seen : list section) (st : merge) : Prop :=
  exists gs c,
    seen = concat gs ++ c /\
    Forall (fun g => g <> []) gs /\
    documents st = map (doc_of_group fp) gs /\
    current_chunk st = join SEP (map sec_text c) /\
    current_titles st = map sec_title c /\
    current_levels st = map sec_level c.

(** Two scanner states that have seen no heading yet differ only in the
    lines they hold, which are never saved. *)
Definition untitled (st1 st2 : scan) : Prop :=
  st1 = st2 \/
  (raw_sections st1 = raw_sections st2 /\
   current_title st1 = [] /\ current_title st2 = [] /\
   scan_level st1 = scan_level st2).

End ChunkerSpec.

(** ** Numbers and the vector index (external collaborators)

    Embeddings are vectors of floating-point numbers. Nothing below depends
    on their arithmetic, so the scalars are a parameter: what [faiss] needs of
    them is collected in a class, and the dimension bookkeeping, which is
    what the code relies on, is modelled exactly. *)

Class Scalar (F : Type) := {
  fzero : F;
  fadd : F -> F -> F;
  fmul : F -> F -> F;
  fltb : F -> F -> bool;
  (** the distance reported for a missing neighbour *)
  fpad : F;
  (** [faiss.normalize_L2] on one row *)
  normalize_L2 : list F -> list F;
  normalize_L2_length : forall v, length (normalize_L2 v) = length v
}.

(** What the chatbot needs of an index: [index.search(x, k)], which returns
    the matrices of distances and of labels, one row per query row. *)
Class VectorIndex (I F : Type) := {
  search : I -> list (list F) -> Z -> result (list (list F) * list (list Z))
}.

(** [faiss.IndexFlatIP] as its Python wrapper presents it: [add] and [search]
    assert that the rows have the dimension of the index; the search is exact,
    by decreasing inner product, and pads missing neighbours with label [-1]. *)
Module Faiss.
Section WithScalars.
Context {F : Type} `{Scalar F}.

Record IndexFlatIP := { d : nat; xb : list (list F) }.

Definition new (dimension : nat) : IndexFlatIP :=
  {| d := dimension; xb := [] |}.

Definition ntotal (idx : IndexFlatIP) : nat := length (xb idx).

Definition has_dimension (n : nat) (x : list (list F)) : bool :=
  forallb (fun row => length row =? n) x.

Definition add (idx : IndexFlatIP) (x : list (list F)) : result IndexFlatIP :=
  if has_dimension (d idx) x
  then Ok {| d := d idx; xb := xb idx ++ x |}
  else Raise AssertionError.

Fixpoint dot (u v : list F) : F :=
  match u, v with
  | a :: u', b :: v' => fadd (fmul a b) (dot u' v')
  | _, _ => fzero
  end.

(** Insertion into a list kept by decreasing score, after equal scores. *)
Fixpoint insert (p : F * Z) (l : list (F * Z)) : list (F * Z) :=
  match l with
  | [] => [p]
  | q :: r => if fltb (fst q) (fst p) then p :: l else q :: insert p r
  end.

Fixpoint number {A} (i : Z) (l : list A) : list (A * Z) :=
  match l with
  | [] => []
  | a :: r => (a, i) :: number (i + 1) r
  end.

Definition ranked (idx : IndexFlatIP) (q : list F) : list (F * Z) :=
  fold_left (fun acc p => insert p acc)
            (number 0 (map (dot q) (xb idx))) [].

Definition top (k : nat) (l : list (F * Z)) : list (F * Z) :=
  firstn k l ++ repeat (fpad, (-1)%Z) (k - length l).

Definition search_flat (idx : IndexFlatIP) (x : list (list F)) (k : Z)
  : result (list (list F) * list (list Z)) :=
  if has_dimension (d idx) x && (0 <? k)%Z then
    let rows := map (fun q => top (Z.to_nat k) (ranked idx q)) x in
    Ok (map (map fst) rows, map (map snd) rows)
  else Raise AssertionError.

End WithScalars.
Arguments IndexFlatIP F : clear implicits.

#[global] Instance flat_index {F} `{Scalar F} : VectorIndex (IndexFlatIP F) F :=
  {| search := search_flat |}.

End Faiss.

(** [np.array(embeddings).astype('float32')] with its [shape[1]]: the rows
    must be lists of one length. *)
Definition np_array {F} (embeddings : list (option (list F)))
  : result (list (list F) * nat) :=
  match embeddings with
  | Some v :: _ =>
      let n := length v in
      rows <- foldM (fun acc e =>
                       match e with
                       | Some u => if length u =? n then Ok (acc ++ [u])
                                   else Raise (ValueError "inhomogeneous shape")
                       | None => Raise (ValueError "inhomogeneous shape")
                       end) embeddings [] ;;
      Ok (rows, n)
  | None :: r =>
      if forallb (fun e => match e with None => true | Some _ => false end) r
      then Raise {| exn_class := "IndexError";
                    exn_msg := lit "tuple index out of range" |}
      else Raise (ValueError "inhomogeneous shape")
  | [] => Raise {| exn_class := "IndexError";
                   exn_msg := lit "tuple index out of range" |}
  end.

(** ** The database directory *)

(** A file of the directory, as the loaders see it: whether
    [os.path.exists] finds it, and what reading it returns or raises. A file
    that is missing or damaged is one whose reading raises. *)
Record file (A : Type) := {
  present : bool;
  contents : result A
}.

(** [config.json]. *)
Record config := {
  cfg_model_name : str;
  cfg_dimension : Z;
  cfg_total_vectors : Z
}.

Record directory (I : Type) := {
  index_faiss : file I;
  texts_pkl : file (list str);
  metadata_pkl : file (list Chunker.doc);
  config_json : file config
}.

Definition unreadable {A} (f : file A) : Prop := is_raise (contents f) = true.

(** At least one of the four artifacts is missing or unreadable. *)
Definition incomplete {I} (dir : directory I) : Prop :=
  unreadable (index_faiss dir) \/ unreadable (texts_pkl dir) \/
  unreadable (metadata_pkl dir) \/ unreadable (config_json dir).

(** A file that does not exist cannot be read. *)
Definition file_ok {A} (f : file A) : Prop :=
  present f = false -> unreadable f.

Definition directory_ok {I} (dir : directory I) : Prop :=
  file_ok (index_faiss dir) /\ file_ok (texts_pkl dir) /\
  file_ok (metadata_pkl dir) /\ file_ok (config_json dir).

(** ** The embedding client and the index build: [VectorDatabase] *)

Module VectorDatabase.
Section WithService.
Context {F : Type} `{Scalar F}.

(** The embedding service: the outcome of the [n]-th request of the session,
    for the text sent. *)
Variable service : nat -> str -> result (list F).

Inductive event :=
| Request (text : str)
| Sleep (seconds : Q).

(** What the outside has seen: the number of requests and the trace. *)
Record world := { requests : nat; trace : list event }.

Definition request (text : str) (w : world) : world :=
  {| requests := S (requests w); trace := trace w ++ [Request text] |}.

Definition sleep (seconds : Q) (w : world) : world :=
  {| requests := requests w; trace := trace w ++ [Sleep seconds] |}.

(** [for attempt in range(max_retries)], from [attempt] on, with [n]
    iterations left. Falling off the loop returns [None]. *)
Fixpoint attempts (n : nat) (attempt max_retries : Z) (text : str) (w : world)
  : result (option (list F)) * world :=
  match n with
  | O => (Ok None, w)
  | S n' =>
      let w1 := request text w in
      match service (requests w) text with
      | Ok v => (Ok (Some v), w1)
      | Raise e =>
          if (attempt <? max_retries - 1)%Z
          then attempts n' (attempt + 1) max_retries text
                        (sleep (inject_Z (2 ^ attempt)) w1)
          else (Raise e, w1)
      end
  end.

Definition get_embedding (text : str) (max_retries : Z) (w : world)
  : result (option (list F)) * world :=
  attempts (Z.to_nat max_retries) 0 max_retries text w.

Definition default_max_retries : Z := 3.

(** The fields of the object. *)
Record vdb := {
  model_name : str;
  index : option (Faiss.IndexFlatIP F);
  texts : list str;
  metadata : list Chunker.doc;
  embeddings : list (option (list F))
}.

(** An element of [content_list]: the keys ['md_data'] and ['md_path']. *)
Record content_data := {
  md_data : option str;
  md_path : option str
}.

(** The first loop of [build_index]. *)
Definition collect (documents : list Chunker.doc) (c : content_data)
  : result (list Chunker.doc) :=
  match md_data c with
  | Some md_text =>
      if truthy md_text then
        let file_path := match md_path c with Some p => p | None => [] end in
        md_docs <- Chunker.process_md_content md_text file_path
                     Chunker.default_min_chunk_size ;;
        Ok (documents ++ md_docs)
      else Ok documents
  | None => Ok documents
  end.

(** The locals of the second loop. *)
Record gathered := {
  g_embeddings : list (option (list F));
  g_texts : list str;
  g_metadata : list Chunker.doc
}.

(** The body of [for i, doc in enumerate(documents)]: a failure is caught
    and the loop continues. *)
Definition embed_doc (st : gathered * world) (doc : Chunker.doc)
  : gathered * world :=
  let (g, w) := st in
  match get_embedding (Chunker.text doc) default_max_retries w with
  | (Ok embedding, w1) =>
      ({| g_embeddings := g_embeddings g ++ [embedding];
          g_texts := g_texts g ++ [Chunker.text doc];
          g_metadata := g_metadata g ++ [doc] |},
       sleep (1 # 10) w1)
  | (Raise _, w1) => (g, w1)
  end.

Definition embed_all (documents : list Chunker.doc) (w : world)
  : gathered * world :=
  fold_left embed_doc documents
    ({| g_embeddings := []; g_texts := []; g_metadata := [] |}, w).

(** From [if not embeddings] on. *)
Definition index_embeddings (self : vdb) (g : gathered) : result (bool * vdb) :=
  if negb (truthy (g_embeddings g)) then Ok (false, self)
  else
    '(embeddings_array, dimension) <- np_array (g_embeddings g) ;;
    let idx := Faiss.new dimension in
    let embeddings_array := map normalize_L2 embeddings_array in
    idx <- Faiss.add idx embeddings_array ;;
    Ok (true, {| model_name := model_name self;
                 index := Some idx;
                 texts := g_texts g;
                 metadata := g_metadata g;
                 embeddings := g_embeddings g |}).

Definition build_index (self : vdb) (content_list : list content_data)
  (w : world) : result (bool * vdb) * world :=
  match foldM collect content_list [] with
  | Raise e => (Raise e, w)
  | Ok documents =>
      let (g, w') := embed_all documents w in
      (index_embeddings self g, w')
  end.

(** [load_database]: each of the three files is read if it exists; the
    configuration is not read. *)
Definition load_database (self : vdb) (dir : directory (Faiss.IndexFlatIP F))
  : result vdb :=
  idx <- (if present (index_faiss dir)
          then i <- contents (index_faiss dir) ;; Ok (Some i)
          else Ok (index self)) ;;
  ts <- (if present (texts_pkl dir)
         then contents (texts_pkl dir) else Ok (texts self)) ;;
  ms <- (if present (metadata_pkl dir)
         then contents (metadata_pkl dir) else Ok (metadata self)) ;;
  Ok {| model_name := model_name self;
        index := idx; texts := ts; metadata := ms;
        embeddings := embeddings self |}.

End WithService.
End VectorDatabase.

(** ** What the embedding client and the build are expected to do

    These follow the specification's words, to be compared with the loops of
    the source. *)

Module VectorDatabaseSpec.
Import VectorDatabase.
Section WithService.
Context {F : Type}.
Variable service : nat -> str -> result (list F).

(** [k] failed attempts, numbered from [attempt] on, each followed by a wait
    of [2 ^ attempt] seconds. *)
Fixpoint backoff (text : str) (k : nat) (attempt : Z) : list event :=
  match k with
  | O => []
  | S k' =>
      Request text :: Sleep (inject_Z (2 ^ attempt))
        :: backoff text k' (attempt + 1)
  end.

(** The attempts [from], [from + 1], ..., [from + k - 1] of the session all
    fail on [text]. *)
Definition all_fail (text : str) (from k : nat) : Prop :=
  forall i, i < k -> is_raise (service (from + i) text) = true.

(** [embeds w docs kept w']: going through [docs] from the world [w], the
    chunks whose embedding succeeds are [kept], each with its vector, the
    others are skipped, and the world ends as [w']. *)
Inductive embeds : world -> list Chunker.doc ->
                   list (Chunker.doc * list F) -> world -> Prop :=
| embeds_done w : embeds w [] [] w
| embeds_keep w doc docs v w1 kept w' :
    get_embedding service (Chunker.text doc) default_max_retries w
      = (Ok (Some v), w1) ->
    embeds (sleep (1 # 10) w1) docs kept w' ->
    embeds w (doc :: docs) ((doc, v) :: kept) w'
| embeds_skip w doc docs e w1 kept w' :
    get_embedding service (Chunker.text doc) default_max_retries w
      = (Raise e, w1) ->
    embeds w1 docs kept w' ->
    embeds w (doc :: docs) kept w'.

End WithService.

(** The accumulators of the second loop after the chunks [kept] were added. *)
Definition gathered_of {F} (g : gathered (F:=F))
  (kept : list (Chunker.doc * list F)) : gathered :=
  {| g_embeddings := g_embeddings g ++ map (fun p => Some (snd p)) kept;
     g_texts := g_texts g ++ map (fun p => Chunker.text (fst p)) kept;
     g_metadata := g_metadata g ++ map fst kept |}.

(** Whether [build_index] returned [False]. *)
Definition returned_false {A} (r : result (bool * A)) : Prop :=
  exists self', r = Ok (false, self').

End VectorDatabaseSpec.

(** ** The question-answering side: [RAGChatbot] *)

Module RAGChatbot.

(** A message of the conversation: [{"role": ..., "content": ...}]. *)
Record message := { role : str; content : str }.

Definition system_message (c : str) : message :=
  {| role := lit "system"; content := c |}.
Definition user_message (c : str) : message :=
  {| role := lit "user"; content := c |}.
Definition assistant_message (c : str) : message :=
  {| role := lit "assistant"; content := c |}.

(** The text of [system_prompt] before [{context}]; a line feed follows it. *)
Definition system_prompt_head : str :=
  [20320; 26159; 19968; 20010; 26234; 33021; 21161; 25163; 65292; 19987;
   38376; 24110; 21161; 20225; 19994; 20869; 37096; 25552; 25928; 12290;
   20320; 20250; 22522; 20110; 25552; 20379; 30340; 25991; 26723; 20869;
   23481; 26469; 22238; 31572; 38382; 39064; 12290; 10; 10; 35831; 36981;
   24490; 20197; 19979; 35268; 21017; 65306; 10; 49; 46; 32; 20027; 35201;
   22522; 20110; 25552; 20379; 30340; 19978; 19979; 25991; 20869; 23481;
   26469; 22238; 31572; 38382; 39064; 10; 50; 46; 32; 22914; 26524; 19978;
   19979; 25991; 20013; 27809; 26377; 30456; 20851; 20449; 24687; 65292;
   35831; 35802; 23454; 22320; 35828; 26126; 10; 51; 46; 32; 20445; 25345;
   22238; 31572; 30340; 20934; 30830; 24615; 21644; 19987; 19994; 24615;
   32; 32; 10; 52; 46; 32; 22914; 26524; 21487; 33021; 65292; 25552; 20379;
   20855; 20307; 30340; 24341; 29992; 25110; 20986; 22788; 10; 53; 46; 32;
   22238; 31572; 35201; 31616; 27905; 26126; 20102; 65292; 20415; 20110;
   29702; 35299; 10; 54; 46; 32; 25903; 25345; 20013; 25991; 23545; 35805;
   10; 10; 19978; 19979; 25991; 20449; 24687; 65306; 10]%N.

(** [system_prompt.format(context=context)]. *)
Definition system_prompt_format (context : str) : str :=
  system_prompt_head ++ context ++ [NL].

(** The prefix of the reply when the completion fails. *)
Definition generation_failed : str :=
  [29983; 25104; 22238; 31572; 26102; 20986; 38169; 58; 32]%N.

(** The prefix of the message when the database cannot be loaded. *)
Definition loading_failed : str :=
  [21152; 36733; 21521; 37327; 25968; 25454; 24211; 22833; 36133; 58; 32]%N.

(** The header of a Markdown chunk in the context. The dictionaries that
    [build_index] stores have no key ['section_title'] or ['section_level']
    (these are under ['metadata']), so the lookups give ['N/A'] and [0]. *)
Definition markdown_header : str :=
  [91; 25991; 26723; 31456; 33410; 32; 45; 32]%N ++ lit "N/A"
  ++ lit " (Level " ++ lit "0" ++ lit ")]".

Definition context_separator : str := [NL] ++ lit "---" ++ [NL].

(** An element of the list that [search_similar_documents] returns. *)
Record hit (F : Type) := {
  hit_text : str;
  hit_metadata : Chunker.doc;
  similarity : F;
  rank : nat
}.
Arguments hit_text {F}.
Arguments hit_metadata {F}.

(** What [chat] returns. *)
Record reply (F : Type) := {
  response : str;
  context : str;
  similar_documents : list (hit F);
  timestamp : str
}.

Section WithServices.
Context {I F : Type} `{Scalar F} `{VectorIndex I F}.

(** [client.embeddings.create(input, model)] and
    [client.chat.completions.create(model, messages, temperature=0.7)], as
    the outcome of the one request that a call makes, and the clock. *)
Variable embeddings_create : str -> str -> result (list F).
Variable completions_create : str -> list message -> result str.
Variable now : str.

(** The fields of the object. *)
Record chatbot := {
  chat_model : str;
  embedding_model : str;
  index : I;
  texts : list str;
  metadata : list Chunker.doc;
  cfg : config;
  conversation_history : list message
}.

(** [load_vector_database]: the four files are read in turn; any exception
    is wrapped in an [Exception]. *)
Definition read_all (dir : directory I)
  : result (I * list str * list Chunker.doc * config) :=
  i <- contents (index_faiss dir) ;;
  ts <- contents (texts_pkl dir) ;;
  ms <- contents (metadata_pkl dir) ;;
  c <- contents (config_json dir) ;;
  Ok (i, ts, ms, c).

Definition load_vector_database (dir : directory I)
  : result (I * list str * list Chunker.doc * config) :=
  match read_all dir with
  | Ok loaded => Ok loaded
  | Raise e =>
      Raise {| exn_class := "Exception";
               exn_msg := loading_failed ++ exn_msg e |}
  end.

(** [__init__]. *)
Definition init (dir : directory I) (chat_model embedding_model : str)
  : result chatbot :=
  '(i, ts, ms, c) <- load_vector_database dir ;;
  Ok {| chat_model := chat_model; embedding_model := embedding_model;
        index := i; texts := ts; metadata := ms; cfg := c;
        conversation_history := [] |}.

Definition get_embedding (self : chatbot) (text : str) : result (list F) :=
  embeddings_create text (embedding_model self).

(** The body of the loop over [zip(distances[0], indices[0])]. *)
Definition collect_hit (self : chatbot) (results : list (hit F))
  (entry : nat * (F * Z)) : result (list (hit F)) :=
  let '(i, (distance, idx)) := entry in
  if (idx =? -1)%Z then Ok results
  else
    t <- Py.index (texts self) idx ;;
    m <- Py.index (metadata self) idx ;;
    Ok (results ++ [{| hit_text := t; hit_metadata := m;
                       similarity := distance; rank := i + 1 |}]).

Fixpoint enumerate {A} (i : nat) (l : list A) : list (nat * A) :=
  match l with
  | [] => []
  | a :: r => (i, a) :: enumerate (S i) r
  end.

Definition search_similar_documents (self : chatbot) (query : str) (top_k : Z)
  : result (list (hit F)) :=
  query_embedding <- get_embedding self query ;;
  let query_vector := map normalize_L2 [query_embedding] in
  '(distances, indices) <- search (index self) query_vector top_k ;;
  d0 <- head distances ;;
  i0 <- head indices ;;
  foldM (collect_hit self) (enumerate 0 (combine d0 i0)) [].

Definition source_info (d : Chunker.doc) : str :=
  if list_eq_dec N.eq_dec (Chunker.source d) (lit "markdown")
  then markdown_header else [].

Definition generate_context_from_documents (documents : list (hit F)) : str :=
  join context_separator
    (map (fun d => source_info (hit_metadata d) ++ [NL] ++ hit_text d ++ [NL])
         documents).

(** The message list that [generate_response] sends. *)
Definition messages_for (user_query context : str)
  (conversation_history : option (list message)) : list message :=
  let messages := [system_message (system_prompt_format context)] in
  let messages :=
    match conversation_history with
    | Some h => if truthy h then messages ++ last_n 10 h else messages
    | None => messages
    end in
  messages ++ [user_message user_query].

Definition generate_response (self : chatbot) (user_query context : str)
  (conversation_history : option (list message)) : str :=
  match completions_create (chat_model self)
          (messages_for user_query context conversation_history) with
  | Ok text => text
  | Raise e => generation_failed ++ exn_msg e
  end.

Definition record_turns (self : chatbot) (user_query response : str) : chatbot :=
  {| chat_model := chat_model self; embedding_model := embedding_model self;
     index := index self; texts := texts self; metadata := metadata self;
     cfg := cfg self;
     conversation_history :=
       (conversation_history self ++ [user_message user_query])
       ++ [assistant_message response] |}.

Definition chat (self : chatbot) (user_query : str)
  : result (reply F * chatbot) :=
  similar_docs <- search_similar_documents self user_query 5 ;;
  let context := generate_context_from_documents similar_docs in
  let response :=
    generate_response self user_query context
      (Some (conversation_history self)) in
  Ok ({| response := response; context := context;
         similar_documents := similar_docs; timestamp := now |},
      record_turns self user_query response).

Definition clear_history (self : chatbot) : chatbot :=
  {| chat_model := chat_model self; embedding_model := embedding_model self;
     index := index self; texts := texts self; metadata := metadata self;
     cfg := cfg self; conversation_history := [] |}.

End WithServices.
End RAGChatbot.

(** ** A concrete setting for the examples

    Rational scalars. The examples use vectors of norm 0 or 1 only, which
    normalisation leaves as they are. *)

Module Examples.

Definition Qltb (a b : Q) : bool := negb (Qle_bool b a).

#[export] Instance rational : Scalar Q := {|
  fzero := 0%Q;
  fadd := Qplus;
  fmul := Qmult;
  fltb := Qltb;
  fpad := inject_Z (- 2 ^ 128);
  normalize_L2 := fun v => v;
  normalize_L2_length := fun v => eq_refl
|}.

Definition failure (msg : string) : exn :=
  {| exn_class := "APIConnectionError"; exn_msg := lit msg |}.

(** A service that never answers. *)
Definition unreachable : nat -> str -> result (list Q) :=
  fun _ _ => Raise (failure "connection refused").

(** The world before any request. *)
Definition fresh : VectorDatabase.world :=
  {| VectorDatabase.requests := 0; VectorDatabase.trace := [] |}.

(** A service whose first three answers are failures. *)
Definition flaky : nat -> str -> result (list Q) :=
  fun n _ => if n <? 3 then Raise (failure "rate limit") else Ok [1; 0]%Q.

Definition new_database : VectorDatabase.vdb (F:=Q) :=
  {| VectorDatabase.model_name := lit "text-embedding-3-small";
     VectorDatabase.index := None;
     VectorDatabase.texts := [];
     VectorDatabase.metadata := [];
     VectorDatabase.embeddings := [] |}.

(** Two files of one section each. *)
Definition two_files : list VectorDatabase.content_data :=
  [ {| VectorDatabase.md_data := Some (lit "# A");
       VectorDatabase.md_path := Some (lit "a.md") |};
    {| VectorDatabase.md_data := Some (lit "# B");
       VectorDatabase.md_path := Some (lit "b.md") |} ].

(** A file that is not there. *)
Definition absent {A} : file A :=
  {| present := false;
     contents := Raise (failure "No such file or directory") |}.

(** A directory with none of the four files. *)
Definition empty_directory : directory (Faiss.IndexFlatIP Q) :=
  {| index_faiss := absent; texts_pkl := absent;
     metadata_pkl := absent; config_json := absent |}.

(** The document of one section whose text is its title. *)
Definition sample_doc (t : string) : Chunker.doc :=
  ChunkerSpec.doc_of_group []
    [{| Chunker.sec_text := lit t; Chunker.sec_title := lit t;
        Chunker.sec_level := 1 |}].

(** A chatbot over an index of dimension 2 that holds the two unit vectors. *)
Definition sample_bot : RAGChatbot.chatbot (I:=Faiss.IndexFlatIP Q) :=
  {| RAGChatbot.chat_model := lit "gpt-4.1-2025-04-14";
     RAGChatbot.embedding_model := lit "text-embedding-3-large";
     RAGChatbot.index := {| Faiss.d := 2; Faiss.xb := [[1; 0]; [0; 1]]%Q |};
     RAGChatbot.texts := [lit "# A"; lit "# B"];
     RAGChatbot.metadata := [sample_doc "# A"; sample_doc "# B"];
     RAGChatbot.cfg :=
       {| cfg_model_name := lit "text-embedding-3-large";
          cfg_dimension := 2; cfg_total_vectors := 2 |};
     RAGChatbot.conversation_history := [] |}.

(** Embedding services that answer with 2 and with 3 coordinates. *)
Definition two_dim : str -> str -> result (list Q) :=
  fun _ _ => Ok [1; 0]%Q.
Definition three_dim : str -> str -> result (list Q) :=
  fun _ _ => Ok [1; 0; 0]%Q.

(** A completion service that is down. *)
Definition down : str -> list RAGChatbot.message -> result str :=
  fun _ _ => Raise (failure "timeout").

End Examples.

(** ** Further expectations on the chunker *)

Module ChunkerInvariants.
Import Chunker.

(** What every section found by the first loop satisfies: its text is not
    empty and begins with the heading mark, as its title does, and its level
    counts heading marks of the title. *)
Definition section_ok (s : section) : Prop :=
  sec_text s <> [] /\
  startswith_char HASH (sec_text s) = true /\
  startswith_char HASH (sec_title s) = true /\
  1 <= sec_level s <= length (sec_title s).

(** What every returned document satisfies. *)
Definition doc_ok (fp : str) (d : doc) : Prop :=
  text d <> [] /\
  startswith_char HASH (text d) = true /\
  startswith_char HASH (title d) = true /\
  1 <= level d /\
  1 <= sections_count (meta d) /\
  char_count (meta d) = length (text d) /\
  source d = lit "markdown" /\
  file_path (meta d) = fp /\
  section_title (meta d) = title d /\
  combined_section_titles (meta d) = combined_titles d /\
  section_level (meta d) = level d /\
  (sections_count (meta d) = 1 -> combined_titles d = title d).

(** The pending section of the scanner, once a heading was seen. *)
Definition pending_ok (st : scan) : Prop :=
  current_title st <> [] ->
  startswith_char HASH (current_title st) = true /\
  1 <= scan_level st <= length (current_title st) /\
  exists line rest,
    current_section st = line :: rest /\ strip line = current_title st.

(** A document that merges several sections is at most twice the minimum
    size long. *)
Definition merged_within (min_chunk_size : Z) (d : doc) : Prop :=
  2 <= sections_count (meta d) ->
  (Z.of_nat (length (text d)) <= min_chunk_size * 2)%Z.

(** The same, of the accumulators of the second loop. *)
Definition merge_within (min_chunk_size : Z) (st : merge) : Prop :=
  Forall (merged_within min_chunk_size) (documents st) /\
  (2 <= length (current_titles st) ->
   (Z.of_nat (length (current_chunk st)) <= min_chunk_size * 2)%Z).

End ChunkerInvariants.

(** ** More of Python's sequences *)

Module PyMore.

(** An index of a slice, brought into [0 .. n]. *)
Definition clamp (n i : Z) : Z :=
  if (i <? 0)%Z then Z.max 0 (i + n) else Z.min i n.

(** [s[start:stop]]. *)
Definition slice {A} (s : list A) (start stop : Z) : list A :=
  let n := Z.of_nat (length s) in
  let a := clamp n start in
  let b := clamp n stop in
  firstn (Z.to_nat (b - a)) (skipn (Z.to_nat a) s).

(** [s.startswith(prefix)]. *)
Fixpoint startswith (prefix s : str) : bool :=
  match prefix, s with
  | [], _ => true
  | p :: prefix', c :: s' => (c =? p)%N && startswith prefix' s'
  | _ :: _, [] => false
  end.

(** [s.endswith(suffix)]. *)
Definition endswith (suffix s : str) : bool :=
  startswith (rev suffix) (rev s).

(** [s.replace(old, "")] for a non-empty [old]: the occurrences of [old]
    are removed from left to right, without overlap. [skip] characters of an
    occurrence already found are still to be dropped. *)
Fixpoint remove_from (old : str) (skip : nat) (s : str) : str :=
  match s with
  | [] => []
  | c :: t =>
      match skip with
      | S k => remove_from old k t
      | O => if startswith old s
             then remove_from old (length old - 1) t
             else c :: remove_from old 0 t
      end
  end.

Definition remove_all (old s : str) : str := remove_from old 0 s.

(** [os.path.join(a, b)] for a relative [b]. *)
Definition path_join (a b : str) : str :=
  match rev a with
  | [] => b
  | c :: _ => if (c =? 47)%N then a ++ b else a ++ [47%N] ++ b
  end.

End PyMore.

(** ** [VectorDatabase.chunk_text] *)

Module TextChunks.
Import PyMore.

(** The [while] loop, with [fuel] iterations at most: [None] when they do
    not suffice. *)
Fixpoint chunk_loop (fuel : nat) (text : str) (chunk_size overlap : Z)
  (start : Z) (chunks : list str) : option (list str) :=
  match fuel with
  | O => None
  | S fuel' =>
      let n := Z.of_nat (length text) in
      if (start <? n)%Z then
        let end_ := (start + chunk_size)%Z in
        let end_ := if (end_ >? n)%Z then n else end_ in
        let chunks := chunks ++ [slice text start end_] in
        if (end_ =? n)%Z then Some chunks
        else chunk_loop fuel' text chunk_size overlap (end_ - overlap)%Z chunks
      else Some chunks
  end.

Definition chunk_text (fuel : nat) (text : str) (chunk_size overlap : Z)
  : option (list str) :=
  if (Z.of_nat (length text) <=? chunk_size)%Z then Some [text]
  else chunk_loop fuel text chunk_size overlap 0 [].

Definition default_chunk_size : Z := 1000.
Definition default_overlap : Z := 200.

(** The text that overlapping chunks stand for: the first chunk, then each
    later chunk without the characters it shares with the one before. *)
Definition unoverlap (overlap : nat) (chunks : list str) : str :=
  match chunks with
  | [] => []
  | c :: r => c ++ concat (map (skipn overlap) r)
  end.

End TextChunks.

(** ** Saving the database: [VectorDatabase.save_database] *)

Module Persistence.
Import VectorDatabase.
Section WithScalars.
Context {F : Type}.

(** What [faiss.write_index] does with no index at all ([self.index] is
    [None]): the file it leaves, or the exception it raises. *)
Variable write_no_index : result (file (Faiss.IndexFlatIP F)).

(** A file that was written. *)
Definition stored {A} (a : A) : file A :=
  {| present := true; contents := Ok a |}.

(** The [config] dictionary. *)
Definition config_of (self : vdb (F:=F)) : config :=
  {| cfg_model_name := model_name self;
     cfg_dimension :=
       match index self with
       | Some idx => Z.of_nat (Faiss.d idx)
       | None => 0%Z
       end;
     cfg_total_vectors :=
       match index self with
       | Some idx => Z.of_nat (Faiss.ntotal idx)
       | None => 0%Z
       end |}.

(** The four files are written in turn; the index comes first, so that a
    failure to write it leaves the others as they were. *)
Definition save_database (self : vdb)
  (dir : directory (Faiss.IndexFlatIP F))
  : result unit * directory (Faiss.IndexFlatIP F) :=
  match match index self with
        | Some idx => Ok (stored idx)
        | None => write_no_index
        end with
  | Raise e => (Raise e, dir)
  | Ok index_file =>
      (Ok tt,
       {| index_faiss := index_file;
          texts_pkl := stored (texts self);
          metadata_pkl := stored (metadata self);
          config_json := stored (config_of self) |})
  end.

End WithScalars.
End Persistence.

(** The chunks that a content list gives no embedding work for: no file
    has a heading line. *)
Definition no_heading (c : VectorDatabase.content_data) : Prop :=
  match VectorDatabase.md_data c with
  | Some md_text =>
      Forall (fun l => Chunker.is_heading l = false) (split NL md_text)
  | None => True
  end.

(** More sample data. *)
Module MoreExamples.
Import Examples.

(** The object that [build_index] leaves on [two_files] when the first
    three requests fail: only the second chunk was embedded. *)
Definition built_database : VectorDatabase.vdb (F:=Q) :=
  {| VectorDatabase.model_name := lit "text-embedding-3-small";
     VectorDatabase.index :=
       Some {| Faiss.d := 2; Faiss.xb := [[1; 0]%Q] |};
     VectorDatabase.texts := [lit "# B"];
     VectorDatabase.metadata :=
       [ChunkerSpec.doc_of_group (lit "b.md")
          [{| Chunker.sec_text := lit "# B"; Chunker.sec_title := lit "# B";
              Chunker.sec_level := 1 |}]];
     VectorDatabase.embeddings := [Some [1; 0]%Q] |}.

(** A file without any heading line. *)
Definition plain_file : VectorDatabase.content_data :=
  {| VectorDatabase.md_data := Some (lit "no heading here");
     VectorDatabase.md_path := Some (lit "plain.md") |}.

(** Writing no index at all fails. *)
Definition no_index_fails : result (file (Faiss.IndexFlatIP Q)) :=
  Raise (failure "no index").

End MoreExamples.

(** ** What a search is expected to return *)

Module RetrievalSpec.
Import RAGChatbot.
Section WithIndex.
Context {I F : Type}.

(** A neighbour whose label is a position of both arrays. *)
Definition entry_valid (self : chatbot (I:=I)) (e : F * Z) : Prop :=
  exists n, snd e = Z.of_nat n /\
            n < length (texts self) /\ n < length (metadata self).

(** The hit made of a neighbour: its distance, and the text and metadata at
    its label. *)
Definition hit_of (self : chatbot (I:=I)) (e : F * Z) (h : hit F) : Prop :=
  similarity h = fst e /\
  exists n, snd e = Z.of_nat n /\
            nth_error (texts self) n = Some (hit_text h) /\
            nth_error (metadata self) n = Some (hit_metadata h).

End WithIndex.

(** A neighbour that a flat index reports for the query [q]: a stored
    vector, with its position as label and its inner product with [q] as
    distance. *)
Definition neighbour_of {F} `{Scalar F} (idx : Faiss.IndexFlatIP F)
  (q : list F) (e : F * Z) : Prop :=
  exists n x, snd e = Z.of_nat n /\ nth_error (Faiss.xb idx) n = Some x /\
              fst e = Faiss.dot q x.

End RetrievalSpec.

(** ** The transcript of a conversation *)

Module ConversationSpec.
Import RAGChatbot.

(** A transcript made of exchanges: a user message, then the assistant's
    message, and so on. *)
Inductive alternating : list message -> Prop :=
| alternating_nil : alternating []
| alternating_turn q r h :
    alternating h ->
    alternating (user_message q :: assistant_message r :: h).

End ConversationSpec.

(** ** The list of databases: [get_available_databases] *)

Module Databases.
Import PyMore.

(** An item of [os.listdir(".")], with what [os.path.isdir] says of it. *)
Record item := { item_name : str; item_isdir : bool }.

(** The working directory: whether ["./vector_db"] exists, and its items. *)
Record cwd := { default_exists : bool; items : list item }.

(** An element of the returned list. *)
Record database := { db_name : str; db_path : str }.

Definition PREFIX : str := lit "vector_db_".

(** The name given to the default database. *)
Definition default_name : str := [40664; 35748; 25968; 25454; 24211]%N.

(** The body of the loop over the items. *)
Definition named (i : item) : list database :=
  if startswith PREFIX (item_name i) && item_isdir i
  then [{| db_name := remove_all PREFIX (item_name i);
           db_path := item_name i |}]
  else [].

Definition get_available_databases (w : cwd) : list database :=
  (if default_exists w
   then [{| db_name := default_name; db_path := lit "./vector_db" |}]
   else [])
  ++ flat_map named (items w).

(** [old] occurs nowhere in [s]. *)
Definition free_of (old s : str) : Prop :=
  forall k, startswith old (skipn k s) = false.

End Databases.

(** ** Reading the parsed content: [load_parsed_content] of step 2 *)

Module ParsedContent.
Import PyMore VectorDatabase.

(** A file met by [os.walk]: its name and what reading it gives. *)
Record walked := { file_name : str; file_text : result str }.

Definition MD : str := lit ".md".

(** The body of the inner loop: a Markdown file is read and gives one
    entry, made anew for each file. *)
Definition load_file (root : str) (content_list : list content_data)
  (f : walked) : result (list content_data) :=
  if endswith MD (file_name f) then
    data <- file_text f ;;
    Ok (content_list ++
          [{| md_data := Some data;
              md_path := Some (path_join root (file_name f)) |}])
  else Ok content_list.

(** The directories in the order of [os.walk], each with its files. *)
Definition load_parsed_content (walk : list (str * list walked))
  : result (list content_data) :=
  foldM (fun content_list dir => foldM (load_file (fst dir)) (snd dir) content_list)
        walk [].

(** The entry of a Markdown file that was read. *)
Definition entry_of (root : str) (f : walked) : list content_data :=
  match file_text f with
  | Ok data => [{| md_data := Some data;
                   md_path := Some (path_join root (file_name f)) |}]
  | Raise _ => []
  end.

Definition is_markdown (f : walked) : bool := endswith MD (file_name f).

End ParsedContent.

(** ** What loading is expected to report *)

Module LoadingSpec.

(** The error that reading a file raises, if any. *)
Definition failure_of {A} (f : file A) : option exn :=
  match contents f with
  | Raise e => Some e
  | Ok _ => None
  end.

(** The error of the first of the four artifacts, in the order in which
    [load_vector_database] reads them (index, texts, metadata,
    configuration), that is missing or unreadable. *)
Definition first_failure {I} (dir : directory I) : option exn :=
  match failure_of (index_faiss dir) with
  | Some e => Some e
  | None =>
      match failure_of (texts_pkl dir) with
      | Some e => Some e
      | None =>
          match failure_of (metadata_pkl dir) with
          | Some e => Some e
          | None => failure_of (config_json dir)
          end
      end
  end.

(** The directory with another configuration file. *)
Definition with_config {I} (dir : directory I) (c : file config)
  : directory I :=
  {| index_faiss := index_faiss dir; texts_pkl := texts_pkl dir;
     metadata_pkl := metadata_pkl dir; config_json := c |}.

End LoadingSpec.

(** A service that answers the first request with two coordinates and the
    later ones with three. *)
Module RaggedExample.

Definition ragged : nat -> str -> result (list Q) :=
  fun n _ => if n =? 0 then Ok [1; 0]%Q else Ok [1; 0; 0]%Q.

End RaggedExample.

(** ** Lemmas on strings and lists *)

Section StringLemmas.

Lemma truthy_true {A} (xs : list A) : truthy xs = true <-> xs <> [].
Proof. destruct xs; simpl; split; congruence. Qed.

Lemma truthy_false {A} (xs : list A) : truthy xs = false <-> xs = [].
Proof. destruct xs; simpl; split; congruence. Qed.

Lemma join_cons sep (x : str) (r : list str) :
  r <> [] -> join sep (x :: r) = x ++ sep ++ join sep r.
Proof. destruct r; [congruence | reflexivity]. Qed.

Lemma join_snoc sep (c : list str) (x : str) :
  c <> [] -> join sep (c ++ [x]) = join sep c ++ sep ++ x.
Proof.
  induction c as [|y c IH]; [congruence|]. intros _.
  destruct c as [|z c].
  - reflexivity.
  - change ((y :: z :: c) ++ [x]) with (y :: ((z :: c) ++ [x])).
    rewrite join_cons by (simpl; discriminate).
    rewrite IH by discriminate.
    rewrite (@join_cons sep y (z :: c)) by discriminate.
    now rewrite <- !app_assoc.
Qed.

Lemma join_length sep (c : list str) :
  c <> [] ->
  length (join sep c) + length sep =
  list_sum (map (@length char) c) + length sep * length c.
Proof.
  induction c as [|y c IH]; [congruence|]. intros _.
  destruct c as [|z c].
  - simpl. lia.
  - rewrite join_cons by discriminate.
    rewrite !length_app.
    assert (H : z :: c <> []) by discriminate.
    specialize (IH H).
    remember (z :: c) as r eqn:Er.
    cbn [map list_sum fold_right length].
    rewrite Nat.mul_succ_r. unfold list_sum in *. lia.
Qed.

Lemma join_nonempty sep (c : list str) :
  c <> [] -> Forall (fun x => x <> []) c -> join sep c <> [].
Proof.
  destruct c as [|y c]; [congruence|]. intros _ H.
  inversion H as [|? ? Hy _]; subst.
  destruct c; simpl; destruct y; try congruence; discriminate.
Qed.

Lemma join_app_length_le sep (c r : list str) :
  length (join sep c) <= length (join sep (c ++ r)).
Proof.
  revert c. induction r as [|x r IH] using rev_ind; intros c.
  - now rewrite app_nil_r.
  - rewrite app_assoc. destruct (c ++ r) as [|y l] eqn:E.
    + destruct c; [simpl; lia | discriminate].
    + rewrite join_snoc by discriminate. rewrite <- E.
      specialize (IH c). rewrite length_app. lia.
Qed.

Lemma split_without sep (x : str) :
  ~ In sep x -> split sep x = [x].
Proof.
  induction x as [|c x IH]; intros Hx; [reflexivity|]. cbn [split].
  destruct (N.eqb_spec c sep) as [->|Hc]; [exfalso; apply Hx; now left|].
  rewrite IH; [reflexivity|]. intros Hin. apply Hx. now right.
Qed.

Lemma split_app sep (x t : str) :
  ~ In sep x -> split sep (x ++ sep :: t) = x :: split sep t.
Proof.
  induction x as [|c x IH]; intros Hx; cbn [app split].
  - now rewrite N.eqb_refl.
  - destruct (N.eqb_spec c sep) as [->|Hc]; [exfalso; apply Hx; now left|].
    rewrite IH; [reflexivity|]. intros Hin. apply Hx. now right.
Qed.

Lemma split_clean sep (s : str) :
  Forall (fun l => ~ In sep l) (split sep s).
Proof.
  induction s as [|c s IH]; cbn [split].
  - repeat constructor. tauto.
  - destruct (N.eqb_spec c sep) as [->|Hc].
    + constructor; [tauto | exact IH].
    + destruct (split sep s) as [|h r].
      * repeat constructor. intros [E|[]]. congruence.
      * inversion IH as [|? ? Hh Hr]; subst. constructor; [|exact Hr].
        intros [E|Hin]; [congruence | now apply Hh].
Qed.

(** Splitting the lines joined by the separator gives the lines back. *)
Lemma split_join sep (ls : list str) :
  ls <> [] -> Forall (fun l => ~ In sep l) ls ->
  split sep (join [sep] ls) = ls.
Proof.
  induction ls as [|x ls IH]; [congruence|]. intros _ Hall.
  inversion Hall as [|? ? Hx Hls]; subst.
  destruct ls as [|y ls].
  - now apply split_without.
  - rewrite join_cons by discriminate. cbn [app].
    rewrite split_app by assumption.
    rewrite IH; [reflexivity | discriminate | assumption].
Qed.

End StringLemmas.

(** ** The chunker *)

Module ChunkerFacts.
Import Chunker ChunkerSpec.

(** *** The first loop *)

Lemma save_pending_nonempty st :
  Forall nonempty_text (raw_sections st) ->
  Forall nonempty_text (save_pending st).
Proof.
  intros H. unfold save_pending.
  destruct (truthy (current_section st) && truthy (current_title st)); auto.
  destruct (truthy (strip (join [NL] (current_section st)))) eqn:E; auto.
  apply Forall_app. split; auto.
  constructor; [|constructor].
  unfold nonempty_text. simpl. now apply truthy_true.
Qed.

Lemma scan_nonempty lines : forall st,
  Forall nonempty_text (raw_sections st) ->
  Forall nonempty_text (raw_sections (fold_left scan_line lines st)).
Proof.
  induction lines as [|l lines IH]; intros st H; simpl; auto.
  apply IH. unfold scan_line.
  destruct (startswith_char HASH (strip l)); simpl; auto.
  now apply save_pending_nonempty.
Qed.

Lemma sections_nonempty lines :
  Forall nonempty_text (sections_of_lines lines).
Proof.
  apply save_pending_nonempty, scan_nonempty. constructor.
Qed.

Lemma save_pending_untitled st1 st2 :
  untitled st1 st2 -> save_pending st1 = save_pending st2.
Proof.
  intros [->|(Hr & H1 & H2 & _)]; auto.
  unfold save_pending. rewrite H1, H2, Hr. simpl.
  now rewrite !andb_false_r.
Qed.

Lemma scan_line_untitled st1 st2 l :
  untitled st1 st2 -> untitled (scan_line st1 l) (scan_line st2 l).
Proof.
  intros H. pose proof (save_pending_untitled H) as Hs.
  destruct H as [->|(Hr & H1 & H2 & Hl)]; [now left|].
  unfold scan_line. destruct (startswith_char HASH (strip l)).
  - left. now rewrite Hs.
  - right. simpl. auto.
Qed.

Lemma scan_untitled lines : forall st1 st2,
  untitled st1 st2 ->
  untitled (fold_left scan_line lines st1) (fold_left scan_line lines st2).
Proof.
  induction lines as [|l lines IH]; intros st1 st2 H; simpl; auto.
  apply IH. now apply scan_line_untitled.
Qed.

Lemma scan_preamble pre :
  Forall (fun l => is_heading l = false) pre ->
  untitled (fold_left scan_line pre scan_init) scan_init.
Proof.
  induction pre as [|l pre IH] using rev_ind; intros H.
  - now left.
  - apply Forall_app in H as [Hpre Hl].
    inversion Hl as [|? ? Hh _]; subst.
    rewrite fold_left_app. simpl.
    specialize (IH Hpre).
    remember (fold_left scan_line pre scan_init) as st eqn:Est. clear Est.
    unfold scan_line. unfold is_heading in Hh. rewrite Hh.
    right. simpl.
    destruct IH as [->|(Hr & H1 & _ & Hv)]; simpl; auto.
Qed.

Lemma sections_skip_preamble pre rest :
  Forall (fun l => is_heading l = false) pre ->
  sections_of_lines (pre ++ rest) = sections_of_lines rest.
Proof.
  intros H. unfold sections_of_lines. rewrite fold_left_app.
  apply save_pending_untitled, scan_untitled. now apply scan_preamble.
Qed.

(** *** The second loop *)

(** Side conditions of the grouping invariant. *)
Ltac group_side :=
  repeat split; auto;
  try solve
    [ now rewrite <- app_assoc
    | now rewrite app_assoc
    | apply Forall_app; split; auto; repeat constructor;
      first [assumption | discriminate] ].

Lemma texts_nonempty (c : list section) :
  Forall nonempty_text c -> Forall (fun x : str => x <> []) (map sec_text c).
Proof. intros H. apply Forall_map. exact H. Qed.

Lemma open_group_truthy (c : list section) :
  Forall nonempty_text c ->
  truthy (join SEP (map sec_text c)) = truthy c.
Proof.
  intros H. destruct c as [|s c]; [reflexivity|].
  simpl truthy at 2. apply truthy_true.
  apply join_nonempty; [discriminate | now apply texts_nonempty].
Qed.

(** Closing a chunk builds the document of the open group. *)
Lemma make_doc_group fp docs (c : list section) :
  c <> [] ->
  make_doc fp {| documents := docs;
                 current_chunk := join SEP (map sec_text c);
                 current_titles := map sec_title c;
                 current_levels := map sec_level c |}
  = Ok (doc_of_group fp c).
Proof.
  destruct c as [|s c]; [congruence|]. intros _.
  unfold make_doc, doc_of_group, min_level. simpl.
  now rewrite !length_map.
Qed.

Lemma merge_section_grouped fp m seen st s :
  Forall nonempty_text seen -> nonempty_text s ->
  grouped fp seen st ->
  exists st', merge_section fp m st s = Ok st' /\
              grouped fp (seen ++ [s]) st'.
Proof.
  intros Hseen Hs (gs & c & Hcat & Hgs & Hd & Hc & Ht & Hl).
  assert (Hcne : Forall nonempty_text c).
  { rewrite Hcat in Hseen. now apply Forall_app in Hseen. }
  destruct st as [docs chunk titles levels]. simpl in *. subst.
  unfold merge_section. simpl.
  rewrite (open_group_truthy Hcne).
  destruct c as [|s0 c]; simpl truthy; cbn [negb].
  - eexists. split; [reflexivity|].
    exists gs, [s]. simpl. rewrite app_nil_r. repeat split; auto.
  - assert (Hc0 : s0 :: c <> []) by discriminate.
    remember (s0 :: c) as c0 eqn:Ec0. clear Ec0 s0 c.
    destruct ((m <=? _)%Z || (m * 2 <? _)%Z).
    + rewrite make_doc_group by assumption.
      eexists. split; [reflexivity|].
      exists (gs ++ [c0]), [s]. cbn -[join].
      rewrite concat_app, map_app. cbn -[join]. rewrite app_nil_r.
      group_side.
    + eexists. split; [reflexivity|].
      exists gs, (c0 ++ [s]). cbn -[join].
      rewrite !map_app. cbn -[join].
      group_side.
      rewrite join_snoc; [reflexivity|].
      destruct c0; [congruence | discriminate].
Qed.

Lemma foldM_grouped fp m rest : forall seen st,
  Forall nonempty_text (seen ++ rest) ->
  grouped fp seen st ->
  exists st', foldM (merge_section fp m) rest st = Ok st' /\
              grouped fp (seen ++ rest) st'.
Proof.
  induction rest as [|s rest IH]; intros seen st Hne Hg.
  - exists st. rewrite app_nil_r. now split.
  - pose proof Hne as Hne'. apply Forall_app in Hne' as [Hseen Hrest].
    inversion Hrest as [|? ? Hs Hrest']; subst.
    destruct (merge_section_grouped (fp:=fp) m (st:=st) Hseen Hs Hg)
      as (st1 & E1 & G1).
    destruct (IH (seen ++ [s]) st1) as (st' & E' & G').
    { now rewrite <- app_assoc. }
    { exact G1. }
    exists st'. simpl. rewrite E1. simpl. rewrite E'.
    split; [reflexivity|]. now rewrite <- app_assoc in G'.
Qed.

(** The merge as a whole: the returned documents are the documents of a
    partition of the sections into non-empty runs of consecutive sections. *)
Lemma merge_sections_groups fp m raw :
  Forall nonempty_text raw ->
  exists gs,
    concat gs = raw /\ Forall (fun g => g <> []) gs /\
    merge_sections fp m raw = Ok (map (doc_of_group fp) gs).
Proof.
  intros Hne. unfold merge_sections.
  destruct raw as [|s raw]; simpl truthy; cbn [negb].
  - exists []. repeat split; auto.
  - set (ss := s :: raw) in *.
    destruct (@foldM_grouped fp m ss [] merge_init) as (st & E & G).
    { exact Hne. }
    { exists [], []. simpl. repeat split; auto. }
    simpl in G. rewrite E. simpl.
    destruct G as (gs & c & Hcat & Hgs & Hd & Hc & Ht & Hl).
    assert (Hcne : Forall nonempty_text c).
    { rewrite Hcat in Hne. now apply Forall_app in Hne. }
    destruct st as [docs chunk titles levels]. simpl in *. subst docs chunk titles levels.
    unfold flush. simpl. rewrite (open_group_truthy Hcne).
    destruct c as [|s0 c]; simpl truthy; cbn iota.
    + exists gs. rewrite app_nil_r in Hcat. repeat split; auto.
    + rewrite make_doc_group by discriminate. simpl.
      exists (gs ++ [s0 :: c]). rewrite concat_app, map_app. simpl.
      rewrite app_nil_r. group_side.
Qed.

Lemma process_md_content_groups md fp m :
  exists gs,
    concat gs = split_sections md /\ Forall (fun g => g <> []) gs /\
    process_md_content md fp m = Ok (map (doc_of_group fp) gs).
Proof.
  apply merge_sections_groups, sections_nonempty.
Qed.

(** A document that is small enough is never closed before the end. *)
Lemma foldM_small fp m rest : forall docs c,
  c <> [] ->
  Forall nonempty_text (c ++ rest) ->
  (Z.of_nat (length (join SEP (map sec_text (c ++ rest)))) < m)%Z ->
  foldM (merge_section fp m) rest
    {| documents := docs;
       current_chunk := join SEP (map sec_text c);
       current_titles := map sec_title c;
       current_levels := map sec_level c |}
  = Ok {| documents := docs;
          current_chunk := join SEP (map sec_text (c ++ rest));
          current_titles := map sec_title (c ++ rest);
          current_levels := map sec_level (c ++ rest) |}.
Proof.
  induction rest as [|s rest IH]; intros docs c Hc Hne Hlen.
  - now rewrite app_nil_r.
  - assert (Hcne : Forall nonempty_text c) by now apply Forall_app in Hne.
    assert (Hsplit : c ++ s :: rest = (c ++ [s]) ++ rest)
      by now rewrite <- app_assoc.
    rewrite Hsplit in Hne, Hlen |- *.
    assert (Hcs : c ++ [s] <> []) by (destruct c; discriminate).
    assert (Hmc : map sec_text c <> []) by (destruct c; [congruence|discriminate]).
    pose proof (join_app_length_le SEP (map sec_text (c ++ [s]))
                  (map sec_text rest)) as Hle1.
    rewrite <- map_app in Hle1.
    pose proof (join_app_length_le SEP (map sec_text c) [sec_text s]) as Hle2.
    change [sec_text s] with (map sec_text [s]) in Hle2.
    rewrite <- map_app in Hle2.
    cbn [foldM]. unfold merge_section at 1. cbn -[join foldM merge_section].
    rewrite (open_group_truthy Hcne).
    destruct c as [|s0 c]; [congruence|]. cbn [truthy negb].
    remember (s0 :: c) as c0 eqn:Ec0. clear Ec0 s0 c.
    change (NL :: NL :: sec_text s) with (SEP ++ sec_text s).
    replace (join SEP (map sec_text c0) ++ SEP ++ sec_text s)
      with (join SEP (map sec_text (c0 ++ [s])))
      by (rewrite map_app; now apply join_snoc).
    replace (_ || _) with false.
    2:{ symmetry. apply orb_false_iff. split.
        - apply Z.leb_gt. lia.
        - apply Z.ltb_ge. lia. }
    cbn [bind].
    change [sec_title s] with (map sec_title [s]).
    change [sec_level s] with (map sec_level [s]).
    rewrite <- !map_app.
    now apply IH.
Qed.

Lemma merge_sections_small fp m raw :
  raw <> [] ->
  Forall nonempty_text raw ->
  (Z.of_nat (length (join SEP (map sec_text raw))) < m)%Z ->
  merge_sections fp m raw = Ok [doc_of_group fp raw].
Proof.
  intros Hraw Hne Hlen. unfold merge_sections.
  destruct raw as [|s rest]; [congruence|]. cbn [truthy negb foldM].
  unfold merge_section at 1. cbn [merge_init current_chunk truthy negb bind].
  unfold restart. cbn [documents merge_init].
  change (sec_text s) with (join SEP (map sec_text [s])).
  change [sec_title s] with (map sec_title [s]).
  change [sec_level s] with (map sec_level [s]).
  rewrite foldM_small; try assumption; [|discriminate].
  cbn [bind]. unfold flush. cbn [current_chunk documents].
  change ([s] ++ rest) with (s :: rest).
  rewrite (open_group_truthy Hne). cbn [truthy].
  rewrite make_doc_group by discriminate. reflexivity.
Qed.

(** *** The level of a group *)

Lemma fold_min_le (r : list nat) : forall x,
  fold_left Nat.min r x <= x /\
  (forall y, In y r -> fold_left Nat.min r x <= y).
Proof.
  induction r as [|z r IH]; intros x; simpl.
  - split; [lia | tauto].
  - destruct (IH (Nat.min x z)) as [H1 H2]. split.
    + lia.
    + intros y [<-|Hy]; [lia | auto].
Qed.

Lemma fold_min_in (r : list nat) : forall x,
  fold_left Nat.min r x = x \/ In (fold_left Nat.min r x) r.
Proof.
  induction r as [|z r IH]; intros x; simpl; auto.
  destruct (IH (Nat.min x z)) as [H|H]; [|auto].
  rewrite H. destruct (Nat.min_spec x z) as [[_ ->]|[_ ->]]; auto.
Qed.

Lemma min_level_least (g : list section) s :
  In s g -> min_level g <= sec_level s.
Proof.
  unfold min_level. destruct g as [|s0 g]; [contradiction|]. simpl map.
  destruct (fold_min_le (map sec_level g) (sec_level s0)) as [H1 H2].
  intros [<-|Hs]; [exact H1|]. apply H2. now apply in_map.
Qed.

Lemma min_level_attained (g : list section) :
  g <> [] -> exists s, In s g /\ min_level g = sec_level s.
Proof.
  unfold min_level. destruct g as [|s0 g]; [congruence|]. intros _. simpl map.
  destruct (fold_min_in (map sec_level g) (sec_level s0)) as [H|H].
  - exists s0. split; [now left | exact H].
  - apply in_map_iff in H as (s & Hs & Hin).
    exists s. split; [now right | now rewrite Hs].
Qed.

(** *** Character counts *)

Lemma group_char_count fp (g : list section) :
  g <> [] ->
  char_count (meta (doc_of_group fp g)) + 2 =
  total_section_length g + 2 * length g.
Proof.
  intros Hg. unfold doc_of_group, total_section_length.
  cbn [meta char_count].
  assert (Hm : map sec_text g <> []) by (destruct g; [congruence|discriminate]).
  pose proof (join_length SEP Hm) as H.
  rewrite map_map, length_map in H. cbn [SEP length] in H. lia.
Qed.

Lemma groups_char_count fp (gs : list (list section)) :
  Forall (fun g => g <> []) gs ->
  total_char_count (map (doc_of_group fp) gs) + 2 * length gs =
  total_section_length (concat gs) + 2 * length (concat gs).
Proof.
  induction 1 as [|g gs Hg _ IH]; [reflexivity|].
  pose proof (group_char_count fp Hg) as H1.
  unfold total_char_count, total_section_length in *.
  cbn [map concat list_sum length].
  rewrite map_app, list_sum_app, length_app.
  cbn [list_sum fold_right] in *. unfold list_sum in *. lia.
Qed.

End ChunkerFacts.

(** ** The embedding client *)

Module VectorDatabaseFacts.
Import VectorDatabase VectorDatabaseSpec.

Section WithService.
Context {F : Type}.
Variable service : nat -> str -> result (list F).
Variable text : str.
Variable max_retries : Z.

Lemma world_eq (n : nat) (t : list event) n' t' :
  n = n' -> t = t' ->
  {| requests := n; trace := t |} = {| requests := n'; trace := t' |}.
Proof. now intros -> ->. Qed.

Lemma attempts_success k : forall n attempt w v,
  (Z.of_nat n + attempt = max_retries)%Z ->
  k < n ->
  all_fail service text (requests w) k ->
  service (requests w + k) text = Ok v ->
  attempts service n attempt max_retries text w =
  (Ok (Some v),
   {| requests := requests w + k + 1;
      trace := trace w ++ backoff text k attempt ++ [Request text] |}).
Proof.
  induction k as [|k IH]; intros n attempt w v Hn Hk Hfail Hok.
  - destruct n as [|n]; [lia|]. simpl.
    rewrite Nat.add_0_r in Hok. rewrite Hok.
    f_equal. unfold request. apply world_eq; [lia | reflexivity].
  - destruct n as [|n]; [lia|]. cbn [attempts].
    pose proof (Hfail 0 ltac:(lia)) as H0. rewrite Nat.add_0_r in H0.
    destruct (service (requests w) text) as [?|e]; [discriminate|].
    replace (attempt <? max_retries - 1)%Z with true
      by (symmetry; apply Z.ltb_lt; lia).
    rewrite (IH n (attempt + 1)%Z _ v).
    + f_equal. cbn [requests trace request sleep backoff].
      apply world_eq; [lia|]. now rewrite <- !app_assoc.
    + lia.
    + lia.
    + intros i Hi. cbn [requests request sleep].
      replace (S (requests w) + i) with (requests w + S i) by lia.
      apply Hfail. lia.
    + cbn [requests request sleep].
      replace (S (requests w) + k) with (requests w + S k) by lia.
      exact Hok.
Qed.

Lemma attempts_exhausted n : forall attempt w e,
  1 <= n ->
  (Z.of_nat n + attempt = max_retries)%Z ->
  all_fail service text (requests w) n ->
  service (requests w + (n - 1)) text = Raise e ->
  attempts service n attempt max_retries text w =
  (Raise e,
   {| requests := requests w + n;
      trace := trace w ++ backoff text (n - 1) attempt ++ [Request text] |}).
Proof.
  induction n as [|n IH]; intros attempt w e Hn Hmax Hfail Hlast; [lia|].
  cbn [attempts].
  destruct n as [|n].
  - cbn in Hlast. rewrite Nat.add_0_r in Hlast. rewrite Hlast.
    replace (attempt <? max_retries - 1)%Z with false
      by (symmetry; apply Z.ltb_ge; lia).
    f_equal. unfold request. apply world_eq; [lia | reflexivity].
  - pose proof (Hfail 0 ltac:(lia)) as H0. rewrite Nat.add_0_r in H0.
    destruct (service (requests w) text) as [?|e0]; [discriminate|].
    replace (attempt <? max_retries - 1)%Z with true
      by (symmetry; apply Z.ltb_lt; lia).
    rewrite (IH (attempt + 1)%Z _ e).
    + f_equal. cbn [requests trace request sleep].
      apply world_eq; [lia|].
      replace (S (S n) - 1) with (S (S n - 1)) by lia.
      cbn [backoff]. now rewrite <- !app_assoc.
    + lia.
    + lia.
    + intros i Hi. cbn [requests request sleep].
      replace (S (requests w) + i) with (requests w + S i) by lia.
      apply Hfail. lia.
    + cbn [requests request sleep].
      replace (S (requests w) + (S n - 1)) with (requests w + (S (S n) - 1))
        by lia. exact Hlast.
Qed.

Lemma attempts_bound n : forall attempt w,
  requests w <= requests (snd (attempts service n attempt max_retries text w)) <=
  requests w + n.
Proof.
  induction n as [|n IH]; intros attempt w; cbn [attempts].
  - simpl. lia.
  - destruct (service (requests w) text) as [v|e]; [simpl; lia|].
    destruct (attempt <? max_retries - 1)%Z; [|simpl; lia].
    specialize (IH (attempt + 1)%Z
                  (sleep (inject_Z (2 ^ attempt)) (request text w))).
    cbn [requests request sleep] in IH. lia.
Qed.

(** With the default number of attempts the loop never falls through: a
    call that returns, returns a vector that the service gave. *)
Lemma default_returns_vector w o w1 :
  get_embedding service text default_max_retries w = (Ok o, w1) ->
  exists v i, o = Some v /\ service i text = Ok v.
Proof.
  unfold get_embedding, default_max_retries.
  change (Z.to_nat 3) with 3. cbn [attempts].
  repeat match goal with
         | |- context [match service ?n text with _ => _ end] =>
             let E := fresh "E" in
             destruct (service n text) as [?v|?e] eqn:E;
             cbn -[request sleep inject_Z]
         end;
  intros Eq; inversion Eq; eauto.
Qed.

End WithService.

(** *** The index build *)

Section Build.
Context {F : Type} `{Scalar F}.
Variable service : nat -> str -> result (list F).

(** Chunking never raises, so neither does the first loop. *)
Lemma collect_total content_list : forall documents,
  exists docs, foldM collect content_list documents = Ok docs.
Proof.
  induction content_list as [|c cl IH]; intros documents; [now eexists|].
  cbn [foldM]. unfold collect at 1.
  destruct (md_data c) as [md_text|]; [|apply IH].
  destruct (truthy md_text); [|apply IH].
  destruct (ChunkerFacts.process_md_content_groups md_text
              match md_path c with Some p => p | None => [] end
              Chunker.default_min_chunk_size) as (gs & _ & _ & ->).
  apply IH.
Qed.

(** The second loop keeps the chunks whose embedding succeeds, in order, and
    goes on after a failure. *)
Lemma embed_docs_embeds documents : forall g w,
  exists kept w',
    fold_left (embed_doc service) documents (g, w) = (gathered_of g kept, w')
    /\ embeds service w documents kept w'.
Proof.
  induction documents as [|doc docs IH]; intros g w.
  - exists [], w. split; [|constructor].
    unfold gathered_of. cbn. rewrite !app_nil_r. now destruct g.
  - cbn [fold_left]. unfold embed_doc at 2.
    destruct (get_embedding service (Chunker.text doc) default_max_retries w)
      as [[o|e] w1] eqn:E.
    + destruct (default_returns_vector _ _ _ E) as (v & i & -> & _).
      destruct (IH {| g_embeddings := g_embeddings g ++ [Some v];
                      g_texts := g_texts g ++ [Chunker.text doc];
                      g_metadata := g_metadata g ++ [doc] |}
                   (sleep (1 # 10) w1)) as (kept & w' & Efold & Hemb).
      exists ((doc, v) :: kept), w'. split.
      * rewrite Efold. unfold gathered_of. cbn. now rewrite <- !app_assoc.
      * eapply embeds_keep; eassumption.
    + destruct (IH g w1) as (kept & w' & Efold & Hemb).
      exists kept, w'. split; [exact Efold|].
      eapply embeds_skip; eassumption.
Qed.

Lemma embeds_from_service w docs kept w' :
  embeds service w docs kept w' ->
  Forall (fun p => exists i, service i (Chunker.text (fst p)) = Ok (snd p))
         kept.
Proof.
  induction 1 as [|w doc docs v w1 kept w' E _ IH|]; auto.
  constructor; auto.
  destruct (default_returns_vector _ _ _ E) as (v' & i & Hv & Hs).
  exists i. cbn. congruence.
Qed.

Lemma np_array_rows (vs : list (list F)) (n : nat) : forall acc,
  Forall (fun v => length v = n) vs ->
  foldM (fun acc e =>
           match e with
           | Some u => if length u =? n then Ok (acc ++ [u])
                       else Raise (ValueError "inhomogeneous shape")
           | None => Raise (ValueError "inhomogeneous shape")
           end) (map Some vs) acc = Ok (acc ++ vs).
Proof.
  induction vs as [|v vs IH]; intros acc Hall; cbn [map foldM].
  - now rewrite app_nil_r.
  - inversion Hall as [|? ? Hv Hvs]; subst.
    rewrite Nat.eqb_refl. cbn [bind]. rewrite IH by assumption.
    now rewrite <- app_assoc.
Qed.

Lemma np_array_uniform (vs : list (list F)) (n : nat) :
  vs <> [] ->
  Forall (fun v => length v = n) vs ->
  np_array (map Some vs) = Ok (vs, n).
Proof.
  intros Hne Hall. destruct vs as [|v vs]; [congruence|].
  unfold np_array. cbn [map].
  inversion Hall as [|? ? Hv Hvs]; subst.
  change (Some v :: map Some vs) with (map Some (v :: vs)).
  now rewrite np_array_rows.
Qed.

Lemma has_dimension_normalized (vs : list (list F)) (n : nat) :
  Forall (fun v => length v = n) vs ->
  Faiss.has_dimension n (map normalize_L2 vs) = true.
Proof.
  intros Hall. unfold Faiss.has_dimension. apply forallb_forall.
  intros row Hin. apply in_map_iff in Hin as (v & <- & Hv).
  rewrite normalize_L2_length. apply Nat.eqb_eq.
  rewrite Forall_forall in Hall. now apply Hall.
Qed.

End Build.
End VectorDatabaseFacts.

(** ** More on strings *)

Section StripLemmas.

Lemma lstrip_suffix (s : str) : exists w, s = w ++ lstrip s.
Proof.
  induction s as [|c s [w IH]]; [now exists []|]. cbn [lstrip].
  destruct (isspace c).
  - exists (c :: w). cbn. now rewrite <- IH.
  - now exists [].
Qed.

Lemma rstrip_prefix (s : str) : exists w, s = rstrip s ++ w.
Proof.
  unfold rstrip. destruct (lstrip_suffix (rev s)) as [w Hw].
  exists (rev w). rewrite <- rev_app_distr, <- Hw. now rewrite rev_involutive.
Qed.

Lemma lstrip_app (a b : str) :
  lstrip a <> [] -> lstrip (a ++ b) = lstrip a ++ b.
Proof.
  induction a as [|c a IH]; cbn [lstrip app]; [congruence|].
  destruct (isspace c); auto.
Qed.

Lemma lstrip_snoc (y : str) (c : char) :
  isspace c = false -> lstrip (y ++ [c]) = lstrip y ++ [c].
Proof.
  intros Hc. induction y as [|x y IH]; cbn [lstrip app].
  - now rewrite Hc.
  - destruct (isspace x); auto.
Qed.

Lemma rstrip_cons (c : char) (s : str) :
  isspace c = false -> rstrip (c :: s) = c :: rstrip s.
Proof.
  intros Hc. unfold rstrip. cbn [rev]. rewrite lstrip_snoc by assumption.
  rewrite rev_app_distr. reflexivity.
Qed.

(** A text whose trimmed form begins with a character that is not white
    space keeps beginning with it when more text follows. *)
Lemma strip_app_head (c : char) (a b : str) :
  isspace c = false ->
  startswith_char c (strip a) = true ->
  startswith_char c (strip (a ++ b)) = true.
Proof.
  intros Hc Ha. unfold strip in *.
  destruct (rstrip (lstrip a)) as [|x r] eqn:E; [discriminate|].
  cbn in Ha. apply N.eqb_eq in Ha. subst x.
  destruct (rstrip_prefix (lstrip a)) as [w Hw]. rewrite E in Hw.
  rewrite lstrip_app by (rewrite Hw; discriminate).
  rewrite Hw. cbn [app]. rewrite rstrip_cons by assumption.
  cbn. apply N.eqb_refl.
Qed.

Lemma lstrip_char_length (c : char) (s : str) :
  length (lstrip_char c s) <= length s.
Proof.
  induction s as [|x s IH]; cbn [lstrip_char]; [lia|].
  destruct (x =? c)%N; cbn [length]; lia.
Qed.

Lemma join_head sep (x : str) (r : list str) :
  exists tail, join sep (x :: r) = x ++ tail.
Proof.
  destruct r as [|y r].
  - exists []. cbn. now rewrite app_nil_r.
  - eexists. rewrite join_cons by discriminate. reflexivity.
Qed.

End StripLemmas.

(** ** More on the chunker *)

Module ChunkerMoreFacts.
Import Chunker ChunkerSpec ChunkerFacts ChunkerInvariants.

(** A loop whose body keeps an invariant keeps it. *)
Lemma foldM_invariant {A S} (Inv : S -> Prop) (P : A -> Prop)
  (body : S -> A -> result S) :
  (forall st x st', P x -> Inv st -> body st x = Ok st' -> Inv st') ->
  forall xs st st',
    Forall P xs -> Inv st -> foldM body xs st = Ok st' -> Inv st'.
Proof.
  intros Hstep xs. induction xs as [|x xs IH]; intros st st' HP Hinv; cbn [foldM].
  - intros E. injection E as <-. exact Hinv.
  - inversion HP as [|? ? Hx Hxs]; subst.
    destruct (body st x) as [st1|e] eqn:E1; cbn [bind]; [|discriminate].
    apply IH; auto. eapply Hstep; eauto.
Qed.

(** *** The sections *)

Lemma save_pending_ok st :
  Forall section_ok (raw_sections st) -> pending_ok st ->
  Forall section_ok (save_pending st).
Proof.
  intros Hraw Hpend. unfold save_pending.
  destruct (truthy (current_section st)) eqn:Es; cbn [andb]; auto.
  destruct (truthy (current_title st)) eqn:Et; auto.
  destruct (truthy (strip (join [NL] (current_section st)))) eqn:Ec; auto.
  apply Forall_app. split; auto. constructor; [|constructor].
  apply truthy_true in Et. destruct (Hpend Et) as (Hh & Hl & line & rest & Hs & Hline).
  unfold section_ok. cbn [sec_text sec_title sec_level].
  repeat split; try tauto; try lia.
  - now apply truthy_true.
  - rewrite Hs. destruct (join_head [NL] line rest) as [tail ->].
    apply strip_app_head; [reflexivity|]. now rewrite Hline.
Qed.

Lemma scan_line_ok st line :
  Forall section_ok (raw_sections st) -> pending_ok st ->
  Forall section_ok (raw_sections (scan_line st line)) /\
  pending_ok (scan_line st line).
Proof.
  intros Hraw Hpend. unfold scan_line.
  destruct (startswith_char HASH (strip line)) eqn:Eh.
  - cbn [raw_sections]. split; [now apply save_pending_ok|].
    intros _. cbn [current_title scan_level current_section].
    split; [exact Eh|]. split; [|now exists line, []].
    destruct (strip line) as [|c t]; [discriminate|].
    cbn in Eh. apply N.eqb_eq in Eh. subst c.
    cbn [lstrip_char]. rewrite N.eqb_refl.
    pose proof (lstrip_char_length HASH t). cbn [length]. lia.
  - cbn [raw_sections]. split; [exact Hraw|].
    intros Ht. cbn [current_title] in Ht.
    destruct (Hpend Ht) as (Hh & Hl & l0 & rest & Hs & Hl0).
    cbn [current_title scan_level current_section].
    repeat split; try tauto; try lia.
    exists l0, (rest ++ [line]). rewrite Hs. split; [reflexivity | exact Hl0].
Qed.

Lemma scan_ok lines : forall st,
  Forall section_ok (raw_sections st) -> pending_ok st ->
  Forall section_ok (raw_sections (fold_left scan_line lines st)) /\
  pending_ok (fold_left scan_line lines st).
Proof.
  induction lines as [|l lines IH]; intros st Hraw Hpend; cbn [fold_left].
  - now split.
  - destruct (scan_line_ok l Hraw Hpend) as [H1 H2]. now apply IH.
Qed.

Lemma sections_ok lines : Forall section_ok (sections_of_lines lines).
Proof.
  unfold sections_of_lines.
  destruct (@scan_ok lines scan_init) as [H1 H2].
  - constructor.
  - intros Ht. now contradiction Ht.
  - now apply save_pending_ok.
Qed.

(** *** The documents *)

Lemma join_starts sep (c : char) (x : str) (r : list str) :
  startswith_char c x = true -> startswith_char c (join sep (x :: r)) = true.
Proof.
  intros Hx. destruct (join_head sep x r) as [tail ->].
  destruct x; [discriminate | exact Hx].
Qed.

Lemma doc_of_group_ok fp (g : list section) :
  g <> [] -> Forall section_ok g -> doc_ok fp (doc_of_group fp g).
Proof.
  intros Hg Hall. destruct g as [|s g]; [congruence|].
  pose proof Hall as Hall'.
  inversion Hall as [|? ? (Ht & Hst & Hti & Hlv) Hrest]; subst.
  unfold doc_ok, doc_of_group.
  cbn [text title level meta sections_count char_count source file_path
       section_title combined_section_titles section_level combined_titles].
  repeat split; try reflexivity.
  - apply join_nonempty; [discriminate|].
    apply Forall_map. eapply Forall_impl; [|exact Hall'].
    intros a Ha. apply Ha.
  - cbn [map]. now apply join_starts.
  - exact Hti.
  - destruct (@min_level_attained (s :: g)) as (s0 & Hin & ->); [discriminate|].
    rewrite Forall_forall in Hall'. apply Hall' in Hin. apply Hin.
  - cbn [length]. lia.
  - intros Hone. cbn [length] in Hone.
    replace (1 <? length (s :: g)) with false; [reflexivity|].
    symmetry. apply Nat.ltb_ge. cbn [length]. lia.
Qed.

Lemma concat_Forall {A} (P : A -> Prop) (gs : list (list A)) :
  Forall P (concat gs) -> Forall (Forall P) gs.
Proof.
  induction gs as [|g gs IH]; cbn [concat]; intros H; constructor.
  - now apply Forall_app in H.
  - apply IH. now apply Forall_app in H.
Qed.

(** *** One chunk per long section *)

Lemma merge_section_long fp m docs (s x : section) :
  nonempty_text s ->
  (m <= Z.of_nat (length (sec_text s)))%Z ->
  merge_section fp m (restart docs s) x
  = Ok (restart (docs ++ [doc_of_group fp [s]]) x).
Proof.
  intros Hs Hm. unfold merge_section, restart.
  cbn [current_chunk documents current_titles current_levels].
  replace (truthy (sec_text s)) with true
    by (symmetry; now apply truthy_true).
  cbn [negb].
  replace (m <=? Z.of_nat (length (sec_text s)))%Z with true
    by (symmetry; now apply Z.leb_le).
  reflexivity.
Qed.

Lemma flush_single fp docs (s : section) :
  nonempty_text s ->
  flush fp (restart docs s) = Ok (docs ++ [doc_of_group fp [s]]).
Proof.
  intros Hs. unfold flush, restart. cbn [current_chunk documents].
  replace (truthy (sec_text s)) with true
    by (symmetry; now apply truthy_true).
  reflexivity.
Qed.

Lemma foldM_long fp m rest : forall docs s,
  Forall nonempty_text (s :: rest) ->
  Forall (fun x => (m <= Z.of_nat (length (sec_text x)))%Z) (s :: rest) ->
  st <- foldM (merge_section fp m) rest (restart docs s) ;; flush fp st
  = Ok (docs ++ map (fun x => doc_of_group fp [x]) (s :: rest)).
Proof.
  induction rest as [|x rest IH]; intros docs s Hne Hall;
    inversion Hne as [|? ? Hs Hne']; inversion Hall as [|? ? Hm Hall']; subst.
  - cbn [foldM bind map]. now apply flush_single.
  - cbn [foldM]. rewrite merge_section_long by assumption. cbn [bind].
    rewrite IH by assumption. cbn [map]. now rewrite <- app_assoc.
Qed.

(** *** Merged chunks stay within twice the minimum size *)

Lemma make_doc_counts fp st d :
  make_doc fp st = Ok d ->
  text d = current_chunk st /\
  sections_count (meta d) = length (current_titles st) /\
  char_count (meta d) = length (current_chunk st).
Proof.
  unfold make_doc.
  destruct (head (current_titles st)) as [t|e]; cbn [bind]; [|discriminate].
  destruct (Py.min (current_levels st)) as [lv|e]; cbn [bind]; [|discriminate].
  intros E. injection E as <-. repeat split.
Qed.

Lemma merge_section_within fp m st s st' :
  merge_within m st -> merge_section fp m st s = Ok st' -> merge_within m st'.
Proof.
  intros [Hdocs Hcur]. unfold merge_section.
  destruct (negb (truthy (current_chunk st))).
  - intros E. injection E as <-. unfold restart, merge_within.
    cbn [documents current_titles current_chunk length]. split; [exact Hdocs | lia].
  - destruct (m <=? _)%Z eqn:E1; cbn [orb].
    + destruct (make_doc fp st) as [d|e] eqn:Ed; cbn [bind]; [|discriminate].
      intros E. injection E as <-. unfold restart, merge_within.
      cbn [documents current_titles current_chunk length]. split; [|lia].
      apply Forall_app. split; [exact Hdocs|]. constructor; [|constructor].
      destruct (make_doc_counts _ _ Ed) as (Ht & Hc & _).
      unfold merged_within. rewrite Ht, Hc. exact Hcur.
    + destruct (m * 2 <? _)%Z eqn:E2.
      * destruct (make_doc fp st) as [d|e] eqn:Ed; cbn [bind]; [|discriminate].
        intros E. injection E as <-. unfold restart, merge_within.
        cbn [documents current_titles current_chunk length]. split; [|lia].
        apply Forall_app. split; [exact Hdocs|]. constructor; [|constructor].
        destruct (make_doc_counts _ _ Ed) as (Ht & Hc & _).
        unfold merged_within. rewrite Ht, Hc. exact Hcur.
      * intros E. injection E as <-. unfold merge_within.
        cbn [documents current_titles current_chunk]. split; [exact Hdocs|].
        intros _. apply Z.ltb_ge in E2. exact E2.
Qed.

Lemma merge_sections_within fp m raw docs :
  merge_sections fp m raw = Ok docs -> Forall (merged_within m) docs.
Proof.
  unfold merge_sections. destruct (negb (truthy raw)).
  - intros E. injection E as <-. constructor.
  - destruct (foldM (merge_section fp m) raw merge_init) as [st|e] eqn:Ef;
      cbn [bind]; [|discriminate].
    assert (Hst : merge_within m st).
    { apply (@foldM_invariant section merge (merge_within m)
               (fun _ => True) (merge_section fp m))
        with (xs := raw) (st := merge_init).
      - intros st0 x st1 _ Hinv E. eapply merge_section_within; eauto.
      - apply Forall_forall. auto.
      - split; [constructor | cbn; lia].
      - exact Ef. }
    destruct Hst as [Hdocs Hcur]. unfold flush.
    destruct (truthy (current_chunk st)).
    + destruct (make_doc fp st) as [d|e] eqn:Ed; cbn [bind]; [|discriminate].
      intros E. injection E as <-.
      apply Forall_app. split; [exact Hdocs|]. constructor; [|constructor].
      destruct (make_doc_counts _ _ Ed) as (Ht & Hc & _).
      unfold merged_within. rewrite Ht, Hc. exact Hcur.
    + intros E. injection E as <-. exact Hdocs.
Qed.

End ChunkerMoreFacts.

(** ** [chunk_text] *)

Module TextChunksFacts.
Import PyMore TextChunks.

Lemma slice_nat {A} (s : list A) (a b : nat) :
  a <= b <= length s ->
  slice s (Z.of_nat a) (Z.of_nat b) = firstn (b - a) (skipn a s).
Proof.
  intros H. unfold slice, clamp.
  replace (Z.of_nat a <? 0)%Z with false by (symmetry; apply Z.ltb_ge; lia).
  replace (Z.of_nat b <? 0)%Z with false by (symmetry; apply Z.ltb_ge; lia).
  rewrite !Z.min_l by lia.
  rewrite <- Nat2Z.inj_sub by lia. now rewrite !Nat2Z.id.
Qed.

Lemma slice_to_end {A} (s : list A) (a : nat) :
  a <= length s ->
  slice s (Z.of_nat a) (Z.of_nat (length s)) = skipn a s.
Proof.
  intros H. rewrite slice_nat by lia.
  apply firstn_all2. rewrite length_skipn. lia.
Qed.

(** The chunks go after those already made. *)
Lemma chunk_loop_acc fuel text cs ov : forall start acc,
  chunk_loop fuel text cs ov start acc
  = option_map (app acc) (chunk_loop fuel text cs ov start []).
Proof.
  induction fuel as [|fuel IH]; intros start acc; cbn [chunk_loop];
    [reflexivity|].
  destruct (start <? _)%Z; [|cbn; now rewrite app_nil_r].
  set (e := if (start + cs >? _)%Z then _ else _).
  destruct (e =? _)%Z; [reflexivity|].
  rewrite IH. rewrite (IH _ ([] ++ _)).
  destruct (chunk_loop fuel text cs ov (e - ov) []); cbn [option_map];
    [|reflexivity].
  now rewrite <- app_assoc.
Qed.

(** What the loop makes from position [s] on, when the overlap is smaller
    than the chunk size. *)
Lemma chunk_loop_covers text (C O : nat) : forall fuel s,
  O < C -> s < length text -> length text - s <= fuel ->
  exists chunks,
    chunk_loop fuel text (Z.of_nat C) (Z.of_nat O) (Z.of_nat s) []
      = Some chunks /\
    chunks <> [] /\
    Forall (fun c => length c <= C) chunks /\
    Forall (fun c => length c = C) (removelast chunks) /\
    forall j, j <= O ->
      skipn j (hd [] chunks) ++ concat (map (skipn O) (tl chunks))
      = skipn (s + j) text.
Proof.
  induction fuel as [|fuel IH]; intros s HO Hs Hfuel; [lia|].
  cbn [chunk_loop].
  replace (Z.of_nat s <? Z.of_nat (length text))%Z with true
    by (symmetry; apply Z.ltb_lt; lia).
  destruct (Nat.le_gt_cases (length text) (s + C)) as [Hlast|Hmore].
  - (* the remaining text fits in one chunk *)
    replace (if (Z.of_nat s + Z.of_nat C >? Z.of_nat (length text))%Z
             then Z.of_nat (length text) else (Z.of_nat s + Z.of_nat C)%Z)
      with (Z.of_nat (length text)).
    2:{ destruct (Z.gtb_spec (Z.of_nat s + Z.of_nat C) (Z.of_nat (length text)));
        lia. }
    rewrite Z.eqb_refl. rewrite slice_to_end by lia.
    eexists. split; [reflexivity|]. cbn [app hd tl map concat removelast].
    repeat split.
    + discriminate.
    + constructor; [|constructor]. rewrite length_skipn. lia.
    + constructor.
    + intros j _. rewrite app_nil_r, skipn_skipn. f_equal. lia.
  - (* a full chunk, and the loop goes on *)
    replace (if (Z.of_nat s + Z.of_nat C >? Z.of_nat (length text))%Z
             then Z.of_nat (length text) else (Z.of_nat s + Z.of_nat C)%Z)
      with (Z.of_nat (s + C)).
    2:{ destruct (Z.gtb_spec (Z.of_nat s + Z.of_nat C) (Z.of_nat (length text)));
        lia. }
    replace (Z.of_nat (s + C) =? Z.of_nat (length text))%Z with false
      by (symmetry; apply Z.eqb_neq; lia).
    replace (Z.of_nat (s + C) - Z.of_nat O)%Z with (Z.of_nat (s + C - O))
      by lia.
    rewrite slice_nat by lia.
    replace (s + C - s) with C by lia.
    rewrite chunk_loop_acc.
    destruct (IH (s + C - O)) as (rest & Erun & Hne & Hlen & Hfull & Hcover);
      [lia | lia | lia |].
    rewrite Erun. cbn [option_map app].
    eexists. split; [reflexivity|].
    assert (Hc : length (firstn C (skipn s text)) = C).
    { rewrite length_firstn, length_skipn. lia. }
    repeat split.
    + discriminate.
    + constructor; [lia | exact Hlen].
    + destruct rest as [|r0 rest]; [congruence|].
      cbn [removelast]. constructor; [exact Hc | exact Hfull].
    + intros j Hj. cbn [hd tl].
      destruct rest as [|r0 rest]; [congruence|].
      cbn [map concat]. specialize (Hcover O (le_n O)).
      cbn [hd tl] in Hcover. rewrite Hcover.
      replace (s + C - O + O) with (s + C) by lia.
      rewrite <- (firstn_skipn (C - j) (skipn (s + j) text)) at 1.
      f_equal.
      * rewrite skipn_firstn_comm, skipn_skipn.
        now replace (j + s) with (s + j) by lia.
      * rewrite skipn_skipn.
        now replace (C - j + (s + j)) with (s + C) by lia.
Qed.

(** With an overlap that is not smaller than the chunk size the position
    never advances. *)
Lemma chunk_loop_stuck text cs ov : forall fuel start acc,
  (cs <= ov)%Z -> (cs < Z.of_nat (length text))%Z ->
  (0 < Z.of_nat (length text))%Z -> (start <= 0)%Z ->
  chunk_loop fuel text cs ov start acc = None.
Proof.
  induction fuel as [|fuel IH]; intros start acc Hov Hcs Hlen Hstart;
    [reflexivity|].
  cbn [chunk_loop].
  replace (start <? Z.of_nat (length text))%Z with true
    by (symmetry; apply Z.ltb_lt; lia).
  replace (start + cs >? Z.of_nat (length text))%Z with false
    by (symmetry; rewrite Z.gtb_ltb; apply Z.ltb_ge; lia).
  replace (start + cs =? Z.of_nat (length text))%Z with false
    by (symmetry; apply Z.eqb_neq; lia).
  apply IH; lia.
Qed.

End TextChunksFacts.

(** ** More on the index build *)

Module BuildFacts.
Import VectorDatabase VectorDatabaseSpec VectorDatabaseFacts.

Section Build.
Context {F : Type} `{Scalar F}.
Variable service : nat -> str -> result (list F).

(** A chunk costs at most three requests. *)
Lemma embed_doc_requests (g : gathered) (w : world) (doc : Chunker.doc) :
  requests w <= requests (snd (embed_doc service (g, w) doc))
  <= requests w + 3.
Proof.
  unfold embed_doc, get_embedding, default_max_retries.
  pose proof (attempts_bound service (Chunker.text doc) 3 (Z.to_nat 3) 0 w)
    as Hb.
  destruct (attempts service (Z.to_nat 3) 0 3 (Chunker.text doc) w)
    as [[o|e] w1]; cbn [snd sleep requests] in *; change (Z.to_nat 3) with 3 in Hb;
    lia.
Qed.

Lemma embed_docs_requests documents : forall (g : gathered) (w : world),
  requests w
  <= requests (snd (fold_left (embed_doc service) documents (g, w)))
  <= requests w + 3 * length documents.
Proof.
  induction documents as [|doc docs IH]; intros g w; cbn [fold_left length].
  - cbn. lia.
  - pose proof (embed_doc_requests g w doc) as H1.
    destruct (embed_doc service (g, w) doc) as [g1 w1].
    cbn [snd] in H1. specialize (IH g1 w1). lia.
Qed.

(** What [np_array] accepts. *)
Lemma np_rows_inv (n : nat) (embs : list (option (list F))) :
  forall acc rows,
    foldM (fun acc e =>
             match e with
             | Some u => if length u =? n then Ok (acc ++ [u])
                         else Raise (ValueError "inhomogeneous shape")
             | None => Raise (ValueError "inhomogeneous shape")
             end) embs acc = Ok rows ->
    exists vs, embs = map Some vs /\ rows = acc ++ vs /\
               Forall (fun v => length v = n) vs.
Proof.
  induction embs as [|e embs IH]; intros acc rows; cbn [foldM].
  - intros E. injection E as <-. exists []. now rewrite app_nil_r.
  - destruct e as [u|]; [|discriminate].
    destruct (Nat.eqb_spec (length u) n) as [Hu|]; [|discriminate].
    cbn [bind]. intros E. apply IH in E as (vs & -> & -> & Hvs).
    exists (u :: vs). rewrite <- app_assoc. repeat split. now constructor.
Qed.

Lemma np_array_inv (embs : list (option (list F))) rows n :
  np_array embs = Ok (rows, n) ->
  embs = map Some rows /\ Forall (fun v => length v = n) rows.
Proof.
  unfold np_array. destruct embs as [|[v|] embs].
  - discriminate.
  - destruct (foldM _ (Some v :: embs) []) as [rs|e] eqn:E; cbn [bind];
      [|discriminate].
    intros Eq. injection Eq as <- <-.
    apply np_rows_inv in E as (vs & Hm & -> & Hvs). now split.
  - destruct (forallb _ embs); discriminate.
Qed.

Lemma map_Some_inj {A} (l1 l2 : list A) :
  map Some l1 = map Some l2 -> l1 = l2.
Proof.
  revert l2. induction l1 as [|a l1 IH]; intros [|b l2]; cbn [map];
    try discriminate; [reflexivity|].
  intros E. injection E as -> E. f_equal. now apply IH.
Qed.

(** A build that returns [True] leaves parallel arrays behind the index. *)
Lemma build_index_true (self self' : vdb) content_list (w w' : world) :
  build_index service self content_list w = (Ok (true, self'), w') ->
  exists idx,
    index self' = Some idx /\
    model_name self' = model_name self /\
    texts self' = map Chunker.text (metadata self') /\
    length (texts self') = Faiss.ntotal idx /\
    length (metadata self') = Faiss.ntotal idx /\
    length (embeddings self') = Faiss.ntotal idx /\
    0 < Faiss.ntotal idx /\
    Forall (fun row => length row = Faiss.d idx) (Faiss.xb idx).
Proof.
  unfold build_index, embed_all.
  destruct (foldM collect content_list []) as [docs|e]; [|discriminate].
  destruct (embed_docs_embeds service docs
              {| g_embeddings := []; g_texts := []; g_metadata := [] |} w)
    as (kept & w1 & -> & _).
  unfold index_embeddings, gathered_of.
  cbn [g_embeddings g_texts g_metadata app].
  destruct kept as [|p kept]; [cbn; intros E; discriminate|].
  cbn [map truthy negb].
  destruct (np_array _) as [[rows n]|e] eqn:En; cbn [bind]; [|discriminate].
  change (Some (snd p) :: map (fun q => Some (snd q)) kept)
    with (map (fun q : Chunker.doc * list F => Some (snd q)) (p :: kept)) in En.
  apply np_array_inv in En as [Hrows Hdim].
  rewrite <- (map_map snd Some) in Hrows.
  apply map_Some_inj in Hrows. subst rows.
  unfold Faiss.add, Faiss.new. cbn [Faiss.d Faiss.xb].
  rewrite (has_dimension_normalized Hdim). cbn [bind app].
  intros E. injection E as <- <-.
  eexists. split; [reflexivity|].
  cbn [model_name texts metadata embeddings Faiss.ntotal Faiss.xb Faiss.d].
  repeat split.
  - cbn [map]. now rewrite map_map.
  - unfold Faiss.ntotal. cbn [Faiss.xb map length]. now rewrite !length_map.
  - unfold Faiss.ntotal. cbn [Faiss.xb map length]. now rewrite !length_map.
  - unfold Faiss.ntotal. cbn [Faiss.xb map length]. now rewrite !length_map.
  - unfold Faiss.ntotal. cbn [Faiss.xb map length]. lia.
  - change (normalize_L2 (snd p) :: map normalize_L2 (map snd kept))
      with (map normalize_L2 (map snd (p :: kept))).
    apply Forall_map. eapply Forall_impl; [|exact Hdim].
    intros v Hv. cbv beta. now rewrite normalize_L2_length.
Qed.

(** Files without a heading give no chunk. *)
Lemma collect_no_heading content_list : forall documents,
  Forall no_heading content_list ->
  foldM collect content_list documents = Ok documents.
Proof.
  induction content_list as [|c cl IH]; intros documents Hall;
    [reflexivity|].
  inversion Hall as [|? ? Hc Hcl]; subst. cbn [foldM].
  unfold collect at 1. unfold no_heading in Hc.
  destruct (md_data c) as [md_text|]; [|now apply IH].
  destruct (truthy md_text); [|now apply IH].
  unfold Chunker.process_md_content, Chunker.chunks_of_lines.
  replace (Chunker.sections_of_lines (split NL md_text))
    with (Chunker.sections_of_lines []).
  2:{ rewrite <- (ChunkerFacts.sections_skip_preamble [] Hc).
      now rewrite app_nil_r. }
  change (Chunker.merge_sections _ _ (Chunker.sections_of_lines []))
    with (@Ok (list Chunker.doc) []).
  cbn [bind]. rewrite app_nil_r. now apply IH.
Qed.

End Build.
End BuildFacts.

(** ** The flat index and the search *)

Module RetrievalFacts.
Import RAGChatbot RetrievalSpec.

Section Flat.
Context {F : Type} `{Scalar F}.

Lemma insert_perm (p : F * Z) (l : list (F * Z)) :
  Permutation (Faiss.insert p l) (p :: l).
Proof.
  induction l as [|q l IH]; cbn [Faiss.insert]; [reflexivity|].
  destruct (fltb (fst q) (fst p)); [reflexivity|].
  rewrite IH. apply perm_swap.
Qed.

Lemma fold_insert_perm (l : list (F * Z)) : forall acc,
  Permutation (fold_left (fun acc p => Faiss.insert p acc) l acc) (l ++ acc).
Proof.
  induction l as [|p l IH]; intros acc; cbn [fold_left app]; [reflexivity|].
  rewrite IH. rewrite insert_perm. symmetry. apply Permutation_middle.
Qed.

Lemma number_length {A} (l : list A) : forall i,
  length (Faiss.number i l) = length l.
Proof. induction l; intros i; cbn; auto. Qed.

Lemma number_entries {A} (l : list A) : forall i e,
  In e (Faiss.number i l) ->
  exists k, snd e = (i + Z.of_nat k)%Z /\ nth_error l k = Some (fst e).
Proof.
  induction l as [|a l IH]; intros i e; cbn [Faiss.number In]; [tauto|].
  intros [<-|Hin].
  - exists 0. cbn. split; [lia | reflexivity].
  - apply IH in Hin as (k & Hk & Hn). exists (S k). split; [lia | exact Hn].
Qed.

Lemma number_nodup {A} (l : list A) : forall i,
  NoDup (map snd (Faiss.number i l)).
Proof.
  induction l as [|a l IH]; intros i; cbn [Faiss.number map]; constructor.
  - intros Hin. apply in_map_iff in Hin as (e & He & Hin).
    apply number_entries in Hin as (k & Hk & _). cbn [snd] in He. lia.
  - apply IH.
Qed.

(** The ranking of a flat index lists every stored vector once. *)
Lemma ranked_neighbours (idx : Faiss.IndexFlatIP F) (q : list F) :
  length (Faiss.ranked idx q) = Faiss.ntotal idx /\
  NoDup (map snd (Faiss.ranked idx q)) /\
  Forall (neighbour_of idx q) (Faiss.ranked idx q).
Proof.
  unfold Faiss.ranked.
  pose proof (fold_insert_perm
                (Faiss.number 0 (map (Faiss.dot q) (Faiss.xb idx))) [])
    as Hp.
  rewrite app_nil_r in Hp. repeat split.
  - rewrite (Permutation_length Hp), number_length, length_map. reflexivity.
  - eapply Permutation_NoDup;
      [symmetry; apply Permutation_map; exact Hp | apply number_nodup].
  - eapply Permutation_Forall; [symmetry; exact Hp|].
    apply Forall_forall. intros e Hin.
    apply number_entries in Hin as (k & Hk & Hn).
    rewrite nth_error_map in Hn.
    destruct (nth_error (Faiss.xb idx) k) as [x|] eqn:Ex; [|discriminate].
    exists k, x. cbn in Hn. injection Hn as Hn. repeat split; auto.
Qed.

End Flat.

Section Hits.
Context {I F : Type}.
Variable self : chatbot (I:=I).

Lemma index_valid {A} (xs : list A) (n : nat) :
  n < length xs ->
  exists x, Py.index xs (Z.of_nat n) = Ok x /\ nth_error xs n = Some x.
Proof.
  intros Hn. unfold Py.index.
  replace (Z.of_nat n <? 0)%Z with false by (symmetry; apply Z.ltb_ge; lia).
  replace ((0 <=? Z.of_nat n) && (Z.of_nat n <? Z.of_nat (length xs)))%Z
    with true
    by (symmetry; apply andb_true_iff; split;
        [apply Z.leb_le | apply Z.ltb_lt]; lia).
  rewrite Nat2Z.id.
  destruct (nth_error xs n) as [x|] eqn:E; [now exists x|].
  apply nth_error_None in E. lia.
Qed.

Lemma index_beyond {A} (xs : list A) (n : nat) :
  length xs <= n -> Py.index xs (Z.of_nat n) = Raise IndexError.
Proof.
  intros Hn. unfold Py.index.
  replace (Z.of_nat n <? 0)%Z with false by (symmetry; apply Z.ltb_ge; lia).
  replace (Z.of_nat n <? Z.of_nat (length xs))%Z with false
    by (symmetry; apply Z.ltb_ge; lia).
  now rewrite andb_false_r.
Qed.

Lemma enumerate_app {A} (l1 l2 : list A) : forall i,
  enumerate i (l1 ++ l2) = enumerate i l1 ++ enumerate (i + length l1) l2.
Proof.
  induction l1 as [|a l1 IH]; intros i; cbn [enumerate app length].
  - now rewrite Nat.add_0_r.
  - rewrite IH. now rewrite Nat.add_succ_r.
Qed.

Lemma foldM_app {A S} (body : S -> A -> result S) (l1 l2 : list A) :
  forall st,
    foldM body (l1 ++ l2) st = bind (foldM body l1 st) (foldM body l2).
Proof.
  induction l1 as [|a l1 IH]; intros st; cbn [foldM app]; [reflexivity|].
  destruct (body st a); cbn [bind]; [apply IH | reflexivity].
Qed.

(** Valid neighbours all become hits, ranked by their position. *)
Lemma collect_valid (row : list (F * Z)) : forall i acc,
  Forall (entry_valid self) row ->
  exists hits,
    foldM (collect_hit self) (enumerate i row) acc = Ok (acc ++ hits) /\
    Forall2 (hit_of self) row hits /\
    map (@rank F) hits = seq (i + 1) (length row).
Proof.
  induction row as [|[dist idx] row IH]; intros i acc Hall.
  - exists []. cbn. rewrite app_nil_r. repeat split. constructor.
  - inversion Hall as [|? ? (n & Hn & Ht & Hm) Hrest]; subst.
    cbn [snd] in Hn. subst idx.
    destruct (index_valid (texts self) Ht) as (t & Et & Ent).
    destruct (index_valid (metadata self) Hm) as (m & Em & Enm).
    destruct (IH (S i)
                (acc ++ [{| hit_text := t; hit_metadata := m;
                            similarity := dist; rank := i + 1 |}]) Hrest)
      as (hits & Erun & Hhits & Hranks).
    eexists ({| hit_text := t; hit_metadata := m;
               similarity := dist; rank := i + 1 |} :: hits).
    cbn [enumerate foldM]. unfold collect_hit at 1.
    replace (Z.of_nat n =? -1)%Z with false
      by (symmetry; apply Z.eqb_neq; lia).
    rewrite Et, Em. cbn [bind]. rewrite Erun.
    repeat split.
    + now rewrite <- app_assoc.
    + constructor; [|exact Hhits]. split; [reflexivity|].
      exists n. repeat split; assumption.
    + cbn [map length seq rank]. f_equal. now rewrite Hranks.
Qed.

(** Missing neighbours are passed over. *)
Lemma collect_padding (pad : F) (m : nat) : forall i acc,
  foldM (collect_hit self) (enumerate i (repeat (pad, (-1)%Z) m)) acc
  = Ok acc.
Proof.
  induction m as [|m IH]; intros i acc; cbn [repeat enumerate foldM];
    [reflexivity|].
  unfold collect_hit at 1. cbn [Z.eqb Pos.eqb bind]. apply IH.
Qed.

(** Whatever the neighbours are, the loop ends with the hits or with an
    [IndexError]; it ends with the hits only if every label but [-1] is a
    position of the texts. *)
Lemma collect_outcome (row : list (nat * (F * Z))) : forall acc,
  match foldM (collect_hit self) row acc with
  | Ok _ =>
      Forall (fun e => snd (snd e) = (-1)%Z \/
                       exists t, Py.index (texts self) (snd (snd e)) = Ok t)
             row
  | Raise e => e = IndexError
  end.
Proof.
  assert (Hidx : forall A (xs : list A) i r,
             Py.index xs i = Raise r -> r = IndexError).
  { intros A xs i r. unfold Py.index.
    repeat match goal with
           | |- context [if ?b then _ else _] => destruct b
           | |- context [match nth_error ?a ?b with _ => _ end] =>
               destruct (nth_error a b)
           end; congruence. }
  induction row as [|[i [dist idx]] row IH]; intros acc; cbn [foldM].
  - constructor.
  - unfold collect_hit at 1.
    destruct (Z.eqb_spec idx (-1)) as [->|Hne].
    + cbn [bind]. specialize (IH acc).
      destruct (foldM (collect_hit self) row acc); [|exact IH].
      constructor; [now left | exact IH].
    + destruct (Py.index (texts self) idx) as [t|r] eqn:Et; cbn [bind];
        [|now apply Hidx in Et].
      destruct (Py.index (metadata self) idx) as [m|r] eqn:Em; cbn [bind];
        [|now apply Hidx in Em].
      match goal with
      | |- context [foldM (collect_hit self) row ?a] =>
          specialize (IH a); destruct (foldM (collect_hit self) row a)
      end; [|exact IH].
      constructor; [|exact IH]. right. cbn [snd]. now exists t.
Qed.

End Hits.

Lemma combine_fst_snd {A B} (l : list (A * B)) :
  combine (map fst l) (map snd l) = l.
Proof.
  induction l as [|[a b] l IH]; cbn; [reflexivity | now rewrite IH].
Qed.

Lemma enumerate_snd {A} (l : list A) : forall i,
  map snd (enumerate i l) = l.
Proof. induction l as [|a l IH]; intros i; cbn; [reflexivity | now rewrite IH]. Qed.

Lemma NoDup_firstn {A} (k : nat) (l : list A) : NoDup l -> NoDup (firstn k l).
Proof.
  intros Hl. rewrite <- (firstn_skipn k l) in Hl.
  now apply NoDup_app_remove_r in Hl.
Qed.

(** A search with a query of the right dimension comes down to the loop
    over the neighbours that the flat index ranks first. *)
Lemma search_flat_loop {F} `{Scalar F}
  (embeddings_create : str -> str -> result (list F))
  (self : chatbot (I:=Faiss.IndexFlatIP F)) (query : str) (top_k : Z)
  (v : list F) :
  embeddings_create query (embedding_model self) = Ok v ->
  length v = Faiss.d (index self) ->
  (0 < top_k)%Z ->
  search_similar_documents embeddings_create self query top_k
  = foldM (collect_hit self)
      (enumerate 0
         (Faiss.top (Z.to_nat top_k)
            (Faiss.ranked (index self) (normalize_L2 v)))) [].
Proof.
  intros Hv Hd Hk. unfold search_similar_documents, get_embedding.
  rewrite Hv. cbn [bind map search Faiss.flat_index].
  unfold Faiss.search_flat, Faiss.has_dimension. cbn [forallb].
  rewrite normalize_L2_length, Hd, Nat.eqb_refl.
  replace (0 <? top_k)%Z with true by (symmetry; now apply Z.ltb_lt).
  cbn [andb map bind head]. now rewrite combine_fst_snd.
Qed.

End RetrievalFacts.

(** ** The conversation, the context and the lists *)

Module ConversationFacts.
Import RAGChatbot ConversationSpec.

Lemma alternating_app (h : list message) q r :
  alternating h ->
  alternating (h ++ [user_message q; assistant_message r]).
Proof.
  induction 1 as [|q0 r0 h Hh IH]; cbn [app].
  - constructor. constructor.
  - constructor. exact IH.
Qed.

Lemma alternating_even (h : list message) :
  alternating h -> exists k, length h = 2 * k.
Proof.
  induction 1 as [|q r h _ [k Hk]]; [now exists 0|].
  exists (S k). cbn [length]. lia.
Qed.

Lemma alternating_skipn (k : nat) : forall h,
  alternating h -> alternating (skipn (2 * k) h).
Proof.
  induction k as [|k IH]; intros h Hh; [exact Hh|].
  replace (2 * S k) with (S (S (2 * k))) by lia.
  destruct Hh as [|q r h Hh]; [constructor|].
  cbn [skipn]. now apply IH.
Qed.

Lemma alternating_last_n (h : list message) :
  alternating h -> alternating (last_n 10 h).
Proof.
  intros Hh. unfold last_n.
  destruct (alternating_even Hh) as [k Hk].
  replace (length h - 10) with (2 * (k - 5)) by lia.
  now apply alternating_skipn.
Qed.

Lemma join_middle sep (a : list str) (x : str) (b : list str) :
  exists pre post, join sep (a ++ x :: b) = pre ++ x ++ post.
Proof.
  induction a as [|y a (pre & post & IH)]; cbn [app].
  - destruct (join_head sep x b) as [tail ->]. now exists [], tail.
  - rewrite join_cons by (destruct a; discriminate). rewrite IH.
    exists (y ++ sep ++ pre), post. now rewrite <- !app_assoc.
Qed.

End ConversationFacts.

Module DatabasesFacts.
Import PyMore Databases.

Lemma startswith_app (p s : str) : startswith p (p ++ s) = true.
Proof.
  induction p as [|c p IH]; cbn [startswith app]; [reflexivity|].
  now rewrite N.eqb_refl.
Qed.

Lemma remove_skip (old a s : str) :
  remove_from old (length a) (a ++ s) = remove_from old 0 s.
Proof. induction a as [|c a IH]; cbn [length app remove_from]; auto. Qed.

(** An occurrence at the start is removed, and the rest is treated alike. *)
Lemma remove_all_prefix (old s : str) :
  old <> [] -> remove_all old (old ++ s) = remove_all old s.
Proof.
  intros Hold. unfold remove_all.
  destruct old as [|c old]; [congruence|].
  cbn [app remove_from]. change (c :: old ++ s) with ((c :: old) ++ s).
  rewrite startswith_app.
  replace (length (c :: old) - 1) with (length old) by (cbn [length]; lia).
  apply remove_skip.
Qed.

Lemma remove_all_free (old s : str) :
  free_of old s -> remove_all old s = s.
Proof.
  unfold remove_all. induction s as [|c s IH]; intros Hfree; [reflexivity|].
  cbn [remove_from]. pose proof (Hfree 0) as H0. cbn [skipn] in H0.
  rewrite H0. f_equal. apply IH.
  intros k. exact (Hfree (S k)).
Qed.

End DatabasesFacts.

Module ParsedContentFacts.
Import PyMore VectorDatabase ParsedContent.

Lemma load_files_skip root (files : list walked) : forall acc,
  foldM (load_file root) files acc
  = foldM (load_file root) (filter is_markdown files) acc.
Proof.
  induction files as [|f files IH]; intros acc; cbn [foldM filter];
    [reflexivity|].
  unfold is_markdown. unfold load_file at 1.
  destruct (endswith MD (file_name f)) eqn:E.
  - cbn [foldM]. unfold load_file at 2. rewrite E.
    destruct (file_text f); cbn [bind]; [apply IH | reflexivity].
  - cbn [bind]. apply IH.
Qed.

Lemma load_files_readable root (files : list walked) : forall acc,
  Forall (fun f => is_markdown f = true -> is_raise (file_text f) = false)
         files ->
  foldM (load_file root) files acc
  = Ok (acc ++ flat_map (entry_of root) (filter is_markdown files)).
Proof.
  induction files as [|f files IH]; intros acc Hall; cbn [foldM filter].
  - cbn. now rewrite app_nil_r.
  - inversion Hall as [|? ? Hf Hrest]; subst.
    unfold is_markdown in *. unfold load_file at 1.
    destruct (endswith MD (file_name f)) eqn:E.
    + cbn [flat_map]. unfold entry_of at 1.
      destruct (file_text f) as [data|e]; [|now specialize (Hf eq_refl)].
      cbn [bind]. rewrite IH by assumption. now rewrite <- app_assoc.
    + cbn [bind]. now apply IH.
Qed.

End ParsedContentFacts.

(** ** Embeddings of different lengths *)

Module RaggedFacts.

Lemma np_rows_ragged {F} (n : nat) (vs : list (list F)) : forall acc,
  (exists u, In u vs /\ length u <> n) ->
  foldM (fun acc e =>
           match e with
           | Some u => if length u =? n then Ok (acc ++ [u])
                       else Raise (ValueError "inhomogeneous shape")
           | None => Raise (ValueError "inhomogeneous shape")
           end) (map Some vs) acc
  = Raise (ValueError "inhomogeneous shape").
Proof.
  induction vs as [|v vs IH]; intros acc (u & Hin & Hu); [contradiction|].
  cbn [map foldM].
  destruct (Nat.eqb_spec (length v) n) as [Hv|Hv]; [|reflexivity].
  cbn [bind]. apply IH. destruct Hin as [->|Hin]; [congruence|].
  now exists u.
Qed.

(** [np_array] refuses rows of different lengths. *)
Lemma np_array_ragged {F} (vs : list (list F)) (u w : list F) :
  In u vs -> In w vs -> length u <> length w ->
  np_array (map Some vs) = Raise (ValueError "inhomogeneous shape").
Proof.
  intros Hu Hw Hne. destruct vs as [|v vs]; [contradiction|].
  unfold np_array. cbn [map].
  change (Some v :: map Some vs) with (map Some (v :: vs)).
  rewrite np_rows_ragged; [reflexivity|].
  destruct (Nat.eq_dec (length u) (length v)) as [E|E].
  - exists w. split; [exact Hw | congruence].
  - exists u. split; [exact Hu | exact E].
Qed.

End RaggedFacts.

(** ** Properties of the chunker *)

Module ChunkerClaims.
Import Chunker ChunkerSpec ChunkerFacts Samples.

Example split_two_sections :
  split_sections two_sections =
  [ {| sec_text := lit "# A" ++ [NL] ++ lit "foo";
       sec_title := lit "# A"; sec_level := 1 |};
    {| sec_text := lit "# B" ++ [NL] ++ lit "bar";
       sec_title := lit "# B"; sec_level := 1 |} ].
Proof. reflexivity. Qed.

(** C1, as stated, fails: on ["# A\\nfoo\\n# B\\nbar"] with
    [min_chunk_size = 1000] the two sections have 7 characters each, 14 in
    all, and the single returned chunk counts 16, the two sections and the
    blank line that the merge puts between them. *)
Lemma char_count_total_counterexample :
  total_section_length (split_sections two_sections) = 14 /\
  exists docs,
    process_md_content two_sections [] 1000 = Ok docs /\
    map (fun d => char_count (meta d)) docs = [16] /\
    total_char_count docs = 16.
Proof.
  split; [reflexivity|].
  eexists. split; [vm_compute; reflexivity|]. split; reflexivity.
Qed.

(** C1, amended: for every Markdown input [process_md_content] returns, and
    the sum of [char_count] over the returned chunks equals the sum of the
    lengths of the trimmed section texts plus two characters (the separator)
    for every merge, that is, plus twice the number of sections minus the
    number of chunks. *)
Theorem char_count_total md fp min_chunk_size :
  exists docs,
    process_md_content md fp min_chunk_size = Ok docs /\
    length docs <= length (split_sections md) /\
    total_char_count docs + 2 * length docs =
    total_section_length (split_sections md)
    + 2 * length (split_sections md).
Proof.
  destruct (process_md_content_groups md fp min_chunk_size)
    as (gs & Hcat & Hgs & Hrun).
  exists (map (doc_of_group fp) gs). split; [exact Hrun|].
  rewrite <- Hcat. split.
  - rewrite length_map. clear Hcat Hrun.
    induction Hgs as [|g gs Hg _ IH]; [reflexivity|].
    cbn [concat length]. rewrite length_app.
    destruct g; [congruence|]. cbn [length]. lia.
  - rewrite <- (groups_char_count fp Hgs). now rewrite length_map.
Qed.

(** C4, as stated, fails twice. On ["#\\n#\\n#"] with [min_chunk_size = 4]
    the three sections have 3 characters in all, less than 4, and two chunks
    are returned: the first two sections and their separator reach 4
    characters and the chunk is closed. On ["# A\\nfoo\\n# B\\nbar"] with
    [min_chunk_size = 1000] the single chunk's text is not the concatenation
    of the two section texts: a blank line separates them. *)
Lemma small_input_counterexample :
  (total_section_length (split_sections three_hashes) = 3 /\
   map text <$$> process_md_content three_hashes [] 4
   = Ok [[HASH; NL; NL; HASH]; [HASH]]) /\
  (total_section_length (split_sections two_sections) = 14 /\
   map text <$$> process_md_content two_sections [] 1000
   = Ok [lit "# A" ++ [NL] ++ lit "foo" ++ [NL; NL]
           ++ lit "# B" ++ [NL] ++ lit "bar"] /\
   concat (map sec_text (split_sections two_sections))
   = lit "# A" ++ [NL] ++ lit "foo" ++ lit "# B" ++ [NL] ++ lit "bar").
Proof. repeat split; vm_compute; reflexivity. Qed.

(** C4, amended: for every Markdown input with at least one section whose
    section texts, joined by the two-character separator, are strictly
    shorter than [min_chunk_size], [process_md_content] returns exactly one
    chunk, and its text is the section texts in document order joined by
    that separator. *)
Theorem small_input_single_chunk md fp min_chunk_size :
  split_sections md <> [] ->
  (Z.of_nat (length (join SEP (map sec_text (split_sections md))))
   < min_chunk_size)%Z ->
  exists d,
    process_md_content md fp min_chunk_size = Ok [d] /\
    text d = join SEP (map sec_text (split_sections md)) /\
    sections_count (meta d) = length (split_sections md).
Proof.
  intros Hne Hlen. exists (doc_of_group fp (split_sections md)).
  split; [|split; reflexivity].
  apply merge_sections_small; auto. apply sections_nonempty.
Qed.

Lemma small_input_single_chunk_witness :
  exists d,
    process_md_content two_sections [] 1000 = Ok [d] /\
    text d = join SEP (map sec_text (split_sections two_sections)) /\
    sections_count (meta d) = length (split_sections two_sections).
Proof.
  apply (@small_input_single_chunk two_sections [] 1000).
  - vm_compute. discriminate.
  - vm_compute. reflexivity.
Defined.

(** C9: on ["# A\\nfoo\\n# B\\nbar"] with [min_chunk_size = 1000] one chunk
    is returned, with [combined_titles = "# A | # B"] and [level = 1]; and
    for every input the returned chunks are the documents of a partition of
    the sections into runs of consecutive sections, the level of each being
    the least level among the sections of its run. *)
Theorem merged_titles_and_level :
  (forall fp, exists d,
     process_md_content two_sections fp 1000 = Ok [d] /\
     combined_titles d = lit "# A | # B" /\
     level d = 1) /\
  (forall md fp min_chunk_size, exists gs docs,
     process_md_content md fp min_chunk_size = Ok docs /\
     concat gs = split_sections md /\
     Forall2 (fun g d =>
                text d = join SEP (map sec_text g) /\
                (forall s, In s g -> level d <= sec_level s) /\
                (exists s, In s g /\ level d = sec_level s))
             gs docs).
Proof.
  split.
  - intros fp. eexists. split; [|split]; reflexivity.
  - intros md fp m.
    destruct (process_md_content_groups md fp m) as (gs & Hcat & Hgs & Hrun).
    exists gs, (map (doc_of_group fp) gs). repeat split; auto.
    clear Hcat Hrun. induction Hgs as [|g gs Hg _ IH]; constructor; auto.
    repeat split.
    + intros s Hs. now apply min_level_least.
    + now apply min_level_attained.
Qed.

(** C10: the lines before the first heading line are discarded: when the
    lines of the input are [pre] followed by [rest] and no line of [pre] is a
    heading, the result is that of the lines of [rest] alone, which is the
    result for the text of [rest] when there is one; with no heading line at
    all the result is empty. *)
Theorem preamble_discarded md fp min_chunk_size pre rest :
  split NL md = pre ++ rest ->
  Forall (fun l => is_heading l = false) pre ->
  process_md_content md fp min_chunk_size
    = chunks_of_lines rest fp min_chunk_size /\
  (rest <> [] ->
   process_md_content md fp min_chunk_size
     = process_md_content (join [NL] rest) fp min_chunk_size) /\
  (rest = [] -> process_md_content md fp min_chunk_size = Ok []).
Proof.
  intros Hlines Hpre.
  assert (E : process_md_content md fp min_chunk_size
              = chunks_of_lines rest fp min_chunk_size).
  { unfold process_md_content, chunks_of_lines.
    now rewrite Hlines, sections_skip_preamble. }
  split; [exact E|]. split.
  - intros Hrest. rewrite E. unfold process_md_content.
    rewrite split_join; [reflexivity | exact Hrest |].
    pose proof (split_clean NL md) as Hclean.
    rewrite Hlines in Hclean. now apply Forall_app in Hclean.
  - intros ->. rewrite E. reflexivity.
Qed.

Lemma preamble_discarded_witness :
  process_md_content with_preamble [] 2000
    = chunks_of_lines [lit "# A"; lit "foo"] [] 2000 /\
  ([lit "# A"; lit "foo"] <> [] ->
   process_md_content with_preamble [] 2000
     = process_md_content (join [NL] [lit "# A"; lit "foo"]) [] 2000) /\
  ([lit "# A"; lit "foo"] = [] ->
   process_md_content with_preamble [] 2000 = Ok []).
Proof.
  apply (@preamble_discarded with_preamble [] 2000 [lit "intro"]).
  - reflexivity.
  - repeat constructor.
Defined.

End ChunkerClaims.

(** ** Properties of the embedding client and of the index build *)

Module VectorDatabaseClaims.
Import VectorDatabase VectorDatabaseSpec VectorDatabaseFacts Examples.

(** C6: [get_embedding] makes at most [max_retries] requests; when the
    first [k] attempts fail and attempt [k] is answered, it has waited
    [2 ^ attempt] seconds after each failed attempt and returns the vector;
    when all [max_retries] attempts fail, it has waited after each but the
    last and raises the last error; the default is 3 attempts. *)
Theorem retry_policy {F} (service : nat -> str -> result (list F))
  (text : str) (max_retries : Z) (w : world) :
  let out := get_embedding service text max_retries w in
  requests w <= requests (snd out) <= requests w + Z.to_nat max_retries /\
  (forall k v,
     (Z.of_nat k < max_retries)%Z ->
     all_fail service text (requests w) k ->
     service (requests w + k) text = Ok v ->
     out = (Ok (Some v),
            {| requests := requests w + k + 1;
               trace := trace w ++ backoff text k 0 ++ [Request text] |})) /\
  (forall e,
     (1 <= max_retries)%Z ->
     all_fail service text (requests w) (Z.to_nat max_retries) ->
     service (requests w + (Z.to_nat max_retries - 1)) text = Raise e ->
     out = (Raise e,
            {| requests := requests w + Z.to_nat max_retries;
               trace := trace w
                        ++ backoff text (Z.to_nat max_retries - 1) 0
                        ++ [Request text] |})) /\
  default_max_retries = 3%Z.
Proof.
  cbv zeta. unfold get_embedding. repeat split.
  - apply attempts_bound.
  - apply attempts_bound.
  - intros k v Hk Hfail Hok. apply attempts_success; auto; lia.
  - intros e Hmax Hfail Hlast. apply attempts_exhausted; auto; lia.
Qed.

Lemma retry_policy_witness :
  get_embedding unreachable (lit "q") 3 fresh =
  (Raise (failure "connection refused"),
   {| requests := 3;
      trace := [Request (lit "q"); Sleep 1; Request (lit "q"); Sleep 2;
                Request (lit "q")] |}).
Proof.
  apply (proj1 (proj2 (proj2 (retry_policy unreachable (lit "q") 3 fresh)))).
  - lia.
  - intros i _. reflexivity.
  - reflexivity.
Defined.

(** C5, as stated, fails: "the build succeeds whenever at least one
    chunk's embedding succeeds" does not hold when the embeddings obtained
    differ in length. With a service that answers the first request with
    two coordinates and the second with three, both chunks of two files are
    embedded, each at its first request, and the array construction that
    follows the loop raises [ValueError]: [build_index] returns neither
    [True] nor [False]. *)
Lemma build_index_ragged_counterexample :
  fst (build_index RaggedExample.ragged new_database two_files fresh)
  = Raise (ValueError "inhomogeneous shape") /\
  snd (build_index RaggedExample.ragged new_database two_files fresh)
  = {| requests := 2;
       trace := [Request (lit "# A"); Sleep (1 # 10);
                 Request (lit "# B"); Sleep (1 # 10)] |} /\
  RaggedExample.ragged 0 (lit "# A") = Ok [1; 0]%Q /\
  RaggedExample.ragged 1 (lit "# B") = Ok [1; 0; 0]%Q.
Proof. repeat split; vm_compute; reflexivity. Qed.

(** C5, amended: [build_index] goes through all the chunks, keeps those
    whose embedding succeeds and skips the others; it returns [False]
    exactly when none is kept; when at least one is kept and the embeddings
    kept all have one length, it returns [True] with an index of the kept
    chunks; when two of the embeddings kept differ in length, the array
    construction after the loop raises [ValueError]. *)
Theorem build_index_outcome {F} `{Scalar F}
  (service : nat -> str -> result (list F))
  (self : vdb) (content_list : list content_data) (w : world) :
  exists docs kept w',
    foldM collect content_list [] = Ok docs /\
    embeds service w docs kept w' /\
    snd (build_index service self content_list w) = w' /\
    (returned_false (fst (build_index service self content_list w))
     <-> kept = []) /\
    (kept <> [] ->
     forall D, Forall (fun p => length (snd p) = D) kept ->
     fst (build_index service self content_list w) =
     Ok (true,
         {| model_name := model_name self;
            index := Some {| Faiss.d := D;
                             Faiss.xb := map normalize_L2 (map snd kept) |};
            texts := map (fun p => Chunker.text (fst p)) kept;
            metadata := map fst kept;
            embeddings := map (fun p => Some (snd p)) kept |})) /\
    (forall p q,
       In p kept -> In q kept -> length (snd p) <> length (snd q) ->
       fst (build_index service self content_list w)
       = Raise (ValueError "inhomogeneous shape")).
Proof.
  destruct (collect_total content_list []) as (docs & Edocs).
  destruct (embed_docs_embeds service docs
              {| g_embeddings := []; g_texts := []; g_metadata := [] |} w)
    as (kept & w' & Efold & Hemb).
  exists docs, kept, w'.
  unfold build_index, embed_all. rewrite Edocs, Efold.
  unfold gathered_of. cbn [g_embeddings g_texts g_metadata app fst snd].
  split; [reflexivity|]. split; [exact Hemb|]. split; [reflexivity|].
  unfold index_embeddings. cbn [g_embeddings g_texts g_metadata].
  destruct kept as [|[doc v] kept].
  - cbn. split; [split; [reflexivity | intros _; now exists self]|].
    split; [congruence | intros p q []].
  - split; [|split].
    + split; [|discriminate]. intros (self' & E). exfalso. revert E.
      cbn [map truthy negb].
      destruct (np_array _) as [[rows n]|e]; cbn [bind]; [|discriminate].
      destruct (Faiss.add _ _); cbn [bind]; discriminate.
    + intros _ D HD.
      assert (Hall : Forall (fun v => length v = D) (map snd ((doc, v) :: kept)))
        by (apply Forall_map; exact HD).
      cbn [truthy negb map].
      change (Some (snd (doc, v)) :: map (fun p => Some (snd p)) kept)
        with (map (fun p : Chunker.doc * list F => Some (snd p))
                  ((doc, v) :: kept)).
      rewrite <- (map_map snd Some).
      rewrite (np_array_uniform (n:=D)); [|discriminate|exact Hall].
      cbn [bind]. unfold Faiss.add, Faiss.new. cbn [Faiss.d Faiss.xb].
      rewrite has_dimension_normalized by exact Hall.
      cbn [bind app]. rewrite !map_map. reflexivity.
    + intros p q Hp Hq Hne.
      cbn [truthy negb map].
      change (Some (snd (doc, v)) :: map (fun p => Some (snd p)) kept)
        with (map (fun p : Chunker.doc * list F => Some (snd p))
                  ((doc, v) :: kept)).
      rewrite <- (map_map snd Some).
      rewrite (@RaggedFacts.np_array_ragged F _ (snd p) (snd q));
        [reflexivity | now apply in_map | now apply in_map | exact Hne].
Qed.

Example build_skips_failed_chunk :
  match fst (build_index flaky new_database two_files fresh) with
  | Ok (flag, self') =>
      flag = true /\ texts self' = [lit "# B"] /\
      index self' = Some {| Faiss.d := 2; Faiss.xb := [[1; 0]%Q] |}
  | Raise _ => False
  end /\
  trace (snd (build_index flaky new_database two_files fresh)) =
  [Request (lit "# A"); Sleep 1; Request (lit "# A"); Sleep 2;
   Request (lit "# A"); Request (lit "# B"); Sleep (1 # 10)].
Proof. vm_compute. repeat split. Qed.

Example build_fails_without_embeddings :
  fst (build_index unreachable new_database two_files fresh)
  = Ok (false, new_database).
Proof. vm_compute. reflexivity. Qed.

Lemma build_index_outcome_witness :
  exists kept,
    kept <> [] /\
    fst (build_index flaky new_database two_files fresh) =
    Ok (true,
        {| model_name := model_name new_database;
           index := Some {| Faiss.d := 2;
                            Faiss.xb := map normalize_L2 (map snd kept) |};
           texts := map (fun p => Chunker.text (fst p)) kept;
           metadata := map fst kept;
           embeddings := map (fun p => Some (snd p)) kept |}).
Proof.
  destruct (build_index_outcome flaky new_database two_files fresh)
    as (docs & kept & w' & _ & Hemb & _ & Hiff & Hok & _).
  assert (Hkept : kept <> []).
  { intros Hnil. apply Hiff in Hnil. destruct Hnil as (self' & E).
    revert E. vm_compute. discriminate. }
  exists kept. split; [exact Hkept|].
  apply Hok; [exact Hkept|].
  pose proof (embeds_from_service Hemb) as Hs.
  eapply Forall_impl; [|exact Hs].
  intros p (i & Hi). unfold flaky in Hi. destruct (i <? 3); [discriminate|].
  injection Hi as <-. reflexivity.
Defined.

End VectorDatabaseClaims.

(** ** Properties of loading *)

Module LoadingClaims.
Import Examples.

(** C2, as stated, fails: on a directory with none of the four files
    [VectorDatabase.load_database] completes and leaves the object as it
    was, and [RAGChatbot.load_vector_database] raises an exception of class
    [Exception]; neither raises [CorruptDatabaseError]. *)
Lemma load_incomplete_counterexample :
  directory_ok empty_directory /\ incomplete empty_directory /\
  VectorDatabase.load_database new_database
    empty_directory = Ok new_database /\
  RAGChatbot.load_vector_database empty_directory =
  Raise {| exn_class := "Exception";
           exn_msg := RAGChatbot.loading_failed
                      ++ lit "No such file or directory" |}.
Proof. repeat split. now left. Qed.

(** C2, amended: for every database directory in which at least one of the
    four artifacts is missing or unreadable,
    [RAGChatbot.load_vector_database] fails, with an exception of class
    [Exception] whose message is the loading prefix followed by the message
    of the error raised by the first artifact, in reading order, that cannot
    be read; [VectorDatabase.load_database] reads the index, the texts and
    the metadata only where the file exists and takes what it reads, leaves
    the other fields as they were, never reads the configuration, and
    completes whenever the files that exist are readable. *)
Theorem load_incomplete {F : Type} (dir : directory (Faiss.IndexFlatIP F)) :
  (incomplete dir ->
   exists cause,
     LoadingSpec.first_failure dir = Some cause /\
     RAGChatbot.load_vector_database dir =
     Raise {| exn_class := "Exception";
              exn_msg :=
                [21152; 36733; 21521; 37327; 25968; 25454; 24211; 22833;
                 36133; 58; 32]%N ++ exn_msg cause |}) /\
  (forall self : VectorDatabase.vdb,
     (present (index_faiss dir) = true -> ~ unreadable (index_faiss dir)) ->
     (present (texts_pkl dir) = true -> ~ unreadable (texts_pkl dir)) ->
     (present (metadata_pkl dir) = true -> ~ unreadable (metadata_pkl dir)) ->
     exists self',
       VectorDatabase.load_database self dir = Ok self' /\
       VectorDatabase.model_name self' = VectorDatabase.model_name self /\
       VectorDatabase.embeddings self' = VectorDatabase.embeddings self /\
       (present (index_faiss dir) = true ->
        Ok (VectorDatabase.index self')
        = (fun i => Some i) <$$> contents (index_faiss dir)) /\
       (present (index_faiss dir) = false ->
        VectorDatabase.index self' = VectorDatabase.index self) /\
       (present (texts_pkl dir) = true ->
        Ok (VectorDatabase.texts self') = contents (texts_pkl dir)) /\
       (present (texts_pkl dir) = false ->
        VectorDatabase.texts self' = VectorDatabase.texts self) /\
       (present (metadata_pkl dir) = true ->
        Ok (VectorDatabase.metadata self') = contents (metadata_pkl dir)) /\
       (present (metadata_pkl dir) = false ->
        VectorDatabase.metadata self' = VectorDatabase.metadata self)) /\
  (forall (self : VectorDatabase.vdb) (c : file config),
     VectorDatabase.load_database self (LoadingSpec.with_config dir c)
     = VectorDatabase.load_database self dir).
Proof.
  destruct dir as [[pi ci] [pt ct] [pm cm] [pc cc]].
  unfold incomplete, unreadable, LoadingSpec.first_failure,
    LoadingSpec.failure_of, LoadingSpec.with_config.
  cbn [index_faiss texts_pkl metadata_pkl config_json present contents].
  split; [|split].
  - unfold RAGChatbot.load_vector_database, RAGChatbot.read_all.
    cbn [index_faiss texts_pkl metadata_pkl config_json contents].
    intros Hbad.
    destruct ci as [i|e]; [|now exists e].
    destruct ct as [ts|e]; [|now exists e].
    destruct cm as [ms|e]; [|now exists e].
    destruct cc as [c|e]; [|now exists e].
    cbn in Hbad. intuition discriminate.
  - intros self Hi Ht Hm. unfold VectorDatabase.load_database.
    cbn [index_faiss texts_pkl metadata_pkl present contents].
    destruct pi, ci as [i|ei]; try (exfalso; now apply Hi);
    destruct pt, ct as [ts|et]; try (exfalso; now apply Ht);
    destruct pm, cm as [ms|em]; try (exfalso; now apply Hm);
    cbn; eexists; (split; [reflexivity|]);
    repeat split; intros; try discriminate; reflexivity.
  - intros self c. reflexivity.
Qed.

Lemma load_incomplete_witness :
  exists cause,
    LoadingSpec.first_failure empty_directory = Some cause /\
    RAGChatbot.load_vector_database empty_directory =
    Raise {| exn_class := "Exception";
             exn_msg :=
               [21152; 36733; 21521; 37327; 25968; 25454; 24211; 22833;
                36133; 58; 32]%N ++ exn_msg cause |}.
Proof.
  apply (proj1 (load_incomplete empty_directory)). now left.
Defined.

End LoadingClaims.

(** ** Properties of the question-answering side *)

Module RAGChatbotClaims.
Import RAGChatbot Examples.

Example search_finds_both :
  map (fun h => (hit_text h, similarity h, rank h))
  <$$> search_similar_documents two_dim sample_bot (lit "q") 5
  = Ok [(lit "# A", 1%Q, 1); (lit "# B", 0%Q, 2)].
Proof. vm_compute. reflexivity. Qed.

(** The search raises nothing of its own but the lookup errors: an
    exception comes from the embedding request, from the index, or is an
    [IndexError]. *)
Lemma search_exceptions {I F} `{Scalar F} `{VectorIndex I F}
  (embeddings_create : str -> str -> result (list F))
  (self : chatbot) (query : str) (top_k : Z) (e : exn) :
  search_similar_documents embeddings_create self query top_k = Raise e ->
  embeddings_create query (embedding_model self) = Raise e \/
  (exists v, embeddings_create query (embedding_model self) = Ok v /\
             search (index self) [normalize_L2 v] top_k = Raise e) \/
  e = IndexError.
Proof.
  unfold search_similar_documents, get_embedding.
  destruct (embeddings_create query (embedding_model self)) as [v|e0];
    cbn [bind map]; [|intros E; left; congruence].
  destruct (search (index self) [normalize_L2 v] top_k) as [[ds is_]|e0] eqn:Es;
    cbn [bind]; [|intros E; right; left; exists v; split; congruence].
  intros E. right. right.
  destruct ds as [|d0 ds]; cbn [head bind] in E; [congruence|].
  destruct is_ as [|i0 is_]; cbn [head bind] in E; [congruence|].
  revert E. generalize (@nil (hit F)). generalize (enumerate 0 (combine d0 i0)).
  intros l. induction l as [|[i [distance idx]] l IH]; intros acc;
    cbn [foldM]; [discriminate|].
  unfold collect_hit at 1. destruct (idx =? -1)%Z; cbn [bind]; [apply IH|].
  assert (Hidx : forall A (xs : list A) r,
             Py.index xs idx = Raise r -> r = IndexError).
  { intros A xs r. unfold Py.index.
    repeat match goal with
           | |- context [if ?b then _ else _] => destruct b
           | |- context [match nth_error ?a ?b with _ => _ end] =>
               destruct (nth_error a b)
           end; congruence. }
  destruct (Py.index (texts self) idx) as [t|r] eqn:Et; cbn [bind];
    [|intros E; apply Hidx in Et; congruence].
  destruct (Py.index (metadata self) idx) as [m|r] eqn:Em; cbn [bind];
    [apply IH | intros E; apply Hidx in Em; congruence].
Qed.

(** C3, as stated, fails: against an index of dimension 2, a query whose
    embedding has 3 coordinates is handed to the index as it is, and what is
    raised is the [AssertionError] of the index's own check, not a
    [DimensionMismatchError]. *)
Lemma mismatched_query_counterexample :
  Faiss.d (index sample_bot) = 2 /\
  three_dim (lit "q") (embedding_model sample_bot) = Ok [1; 0; 0]%Q /\
  search_similar_documents three_dim sample_bot (lit "q") 5
  = Raise {| exn_class := "AssertionError"; exn_msg := [] |}.
Proof. repeat split. Qed.

(** C3, amended: [search_similar_documents] makes no dimension check of its
    own; for every query whose embedding has a dimension different from
    that of the loaded flat index, the normalised embedding is passed to the
    index's search, whose assertion on the dimension fails: the call raises
    [AssertionError] and returns no result. *)
Theorem mismatched_query_fails_assertion {F} `{Scalar F}
  (embeddings_create : str -> str -> result (list F))
  (self : chatbot (I:=Faiss.IndexFlatIP F)) (query : str) (top_k : Z)
  (v : list F) :
  embeddings_create query (embedding_model self) = Ok v ->
  length v <> Faiss.d (index self) ->
  search (index self) [normalize_L2 v] top_k = Raise AssertionError /\
  search_similar_documents embeddings_create self query top_k
  = Raise AssertionError.
Proof.
  intros Hv Hd.
  assert (E : search (index self) [normalize_L2 v] top_k
              = Raise AssertionError).
  { cbn [search Faiss.flat_index]. unfold Faiss.search_flat, Faiss.has_dimension.
    cbn [forallb]. rewrite normalize_L2_length.
    apply Nat.eqb_neq in Hd. now rewrite Hd. }
  split; [exact E|].
  unfold search_similar_documents, get_embedding. rewrite Hv.
  cbn [bind map]. now rewrite E.
Qed.

Lemma mismatched_query_fails_assertion_witness :
  search (index sample_bot) [normalize_L2 [1; 0; 0]%Q] 5
  = Raise AssertionError /\
  search_similar_documents three_dim sample_bot (lit "q") 5
  = Raise AssertionError.
Proof.
  apply (@mismatched_query_fails_assertion Q _ three_dim sample_bot
           (lit "q") 5 [1; 0; 0]%Q).
  - reflexivity.
  - cbn. lia.
Defined.

(** The last [n] elements are a suffix, of length at most [n]. *)
Lemma last_n_suffix {A} (n : nat) (xs : list A) :
  xs = firstn (length xs - n) xs ++ last_n n xs.
Proof. unfold last_n. now rewrite firstn_skipn. Qed.

Lemma last_n_length {A} (n : nat) (xs : list A) :
  length (last_n n xs) = Nat.min n (length xs).
Proof. unfold last_n. rewrite length_skipn. lia. Qed.

(** C7: for every history, the messages sent to the chat model are one
    message of role ["system"] whose content is the template with the
    context in the place of [{context}], then the last 10 messages of the
    history (all of them when there are at most 10) as they are and in
    their order, then one message of role ["user"] whose content is the
    query; older messages are left out. *)
Theorem prompt_shape {I : Type}
  (completions_create : str -> list message -> result str)
  (self : chatbot (I:=I)) (user_query context : str)
  (history : list message) :
  let recent := skipn (length history - 10) history in
  let prompt :=
    {| role := [115; 121; 115; 116; 101; 109]%N;
       content := system_prompt_head ++ context ++ [10%N] |}
      :: recent
      ++ [{| role := [117; 115; 101; 114]%N; content := user_query |}] in
  messages_for user_query context (Some history) = prompt /\
  length recent = Nat.min 10 (length history) /\
  history = firstn (length history - 10) history ++ recent /\
  length system_prompt_head = 163 /\
  generate_response completions_create self user_query context (Some history)
  = match completions_create (chat_model self) prompt with
    | Ok answer => answer
    | Raise e =>
        [29983; 25104; 22238; 31572; 26102; 20986; 38169; 58; 32]%N
        ++ exn_msg e
    end.
Proof.
  cbv zeta.
  assert (E : messages_for user_query context (Some history)
              = {| role := [115; 121; 115; 116; 101; 109]%N;
                   content := system_prompt_head ++ context ++ [10%N] |}
                  :: skipn (length history - 10) history
                  ++ [{| role := [117; 115; 101; 114]%N;
                         content := user_query |}]).
  { unfold messages_for, system_prompt_format.
    destruct history as [|m history]; reflexivity. }
  repeat split.
  - exact E.
  - apply (last_n_length 10 history).
  - apply (last_n_suffix 10 history).
  - unfold generate_response. now rewrite E.
Qed.

Example prompt_of_twelve :
  let history := map (fun c => user_message [c])
                     [1; 2; 3; 4; 5; 6; 7; 8; 9; 10; 11; 12]%N in
  map content (messages_for (lit "q") [] (Some history))
  = (system_prompt_head ++ [NL])
      :: map (fun c => [c]) [3; 4; 5; 6; 7; 8; 9; 10; 11; 12]%N
      ++ [lit "q"].
Proof. reflexivity. Qed.

(** [chat] completes exactly when the search does. *)
Lemma chat_completes {I F} `{Scalar F} `{VectorIndex I F}
  (embeddings_create : str -> str -> result (list F))
  (completions_create : str -> list message -> result str) (now : str)
  (self : chatbot) (user_query : str) :
  (forall docs,
     search_similar_documents embeddings_create self user_query 5 = Ok docs ->
     exists out self',
       chat embeddings_create completions_create now self user_query
       = Ok (out, self')) /\
  (forall e,
     search_similar_documents embeddings_create self user_query 5 = Raise e ->
     chat embeddings_create completions_create now self user_query = Raise e).
Proof.
  unfold chat. split.
  - intros docs ->. cbn [bind]. eauto.
  - intros e ->. reflexivity.
Qed.

(** C8: every call of [chat] that completes appends exactly two messages to
    the history, a message of role ["user"] with the query and then a
    message of role ["assistant"] with the response; when the completion
    request fails with [e] the call still completes, and the response
    recorded is the failure prefix followed by the message of [e]; when it
    answers, the response is the answer. *)
Theorem chat_appends_two_turns {I F} `{Scalar F} `{VectorIndex I F}
  (embeddings_create : str -> str -> result (list F))
  (completions_create : str -> list message -> result str) (now : str)
  (self self' : chatbot) (user_query : str) (out : reply F) :
  chat embeddings_create completions_create now self user_query
    = Ok (out, self') ->
  conversation_history self' =
    conversation_history self
    ++ [ {| role := [117; 115; 101; 114]%N; content := user_query |};
         {| role := [97; 115; 115; 105; 115; 116; 97; 110; 116]%N;
            content := response out |} ] /\
  (forall e,
     completions_create (chat_model self)
       (messages_for user_query (context out)
          (Some (conversation_history self))) = Raise e ->
     response out =
     [29983; 25104; 22238; 31572; 26102; 20986; 38169; 58; 32]%N
     ++ exn_msg e) /\
  (forall answer,
     completions_create (chat_model self)
       (messages_for user_query (context out)
          (Some (conversation_history self))) = Ok answer ->
     response out = answer).
Proof.
  unfold chat.
  destruct (search_similar_documents embeddings_create self user_query 5)
    as [docs|e]; cbn [bind]; [|discriminate].
  intros E. injection E as <- <-.
  cbn [response context record_turns conversation_history].
  split; [now rewrite <- app_assoc|].
  unfold generate_response.
  split; [intros e -> | intros answer ->]; reflexivity.
Qed.

Lemma chat_appends_two_turns_witness :
  let q := lit "q" in
  let answer :=
    [29983; 25104; 22238; 31572; 26102; 20986; 38169; 58; 32]%N
    ++ lit "timeout" in
  let out :=
    {| response := answer;
       context := generate_context_from_documents
                    [ {| hit_text := lit "# A";
                         hit_metadata := sample_doc "# A";
                         similarity := 1%Q; rank := 1 |};
                      {| hit_text := lit "# B";
                         hit_metadata := sample_doc "# B";
                         similarity := 0%Q; rank := 2 |} ];
       similar_documents :=
         [ {| hit_text := lit "# A"; hit_metadata := sample_doc "# A";
              similarity := 1%Q; rank := 1 |};
           {| hit_text := lit "# B"; hit_metadata := sample_doc "# B";
              similarity := 0%Q; rank := 2 |} ];
       timestamp := lit "2025-01-01T00:00:00" |} in
  conversation_history (record_turns sample_bot q answer) =
    conversation_history sample_bot
    ++ [ {| role := [117; 115; 101; 114]%N; content := q |};
         {| role := [97; 115; 115; 105; 115; 116; 97; 110; 116]%N;
            content := response out |} ] /\
  (forall e,
     down (chat_model sample_bot)
       (messages_for q (context out)
          (Some (conversation_history sample_bot))) = Raise e ->
     response out =
     [29983; 25104; 22238; 31572; 26102; 20986; 38169; 58; 32]%N
     ++ exn_msg e) /\
  (forall answer',
     down (chat_model sample_bot)
       (messages_for q (context out)
          (Some (conversation_history sample_bot))) = Ok answer' ->
     response out = answer').
Proof.
  cbv zeta.
  apply (@chat_appends_two_turns _ Q _ _ two_dim down
           (lit "2025-01-01T00:00:00") sample_bot).
  vm_compute. reflexivity.
Defined.

End RAGChatbotClaims.

(** ** Further properties of the chunker *)

Module ChunkerExtras.
Import Chunker ChunkerSpec ChunkerFacts ChunkerInvariants ChunkerMoreFacts Samples.

(** X1: when every section is at least [min_chunk_size] long, nothing is
    merged: the chunks are the sections, one chunk per section, in order. *)
Theorem one_chunk_per_long_section md fp min_chunk_size :
  Forall (fun s => (min_chunk_size <= Z.of_nat (length (sec_text s)))%Z)
         (split_sections md) ->
  exists docs,
    process_md_content md fp min_chunk_size = Ok docs /\
    map text docs = map sec_text (split_sections md) /\
    map title docs = map sec_title (split_sections md) /\
    map level docs = map sec_level (split_sections md) /\
    Forall (fun d => sections_count (meta d) = 1) docs.
Proof.
  intros Hlong.
  exists (map (fun s => doc_of_group fp [s]) (split_sections md)).
  split.
  - unfold process_md_content, chunks_of_lines, merge_sections.
    fold (split_sections md).
    pose proof (sections_nonempty (split NL md)) as Hne.
    fold (split_sections md) in Hne.
    destruct (split_sections md) as [|s rest]; [reflexivity|].
    cbn [truthy negb foldM].
    change (merge_section fp min_chunk_size merge_init s)
      with (Ok (restart [] s)).
    cbn [bind]. now rewrite foldM_long.
  - rewrite !map_map. repeat split.
    apply Forall_map, Forall_forall. reflexivity.
Qed.

Lemma one_chunk_per_long_section_witness :
  exists docs,
    process_md_content two_sections [] 5 = Ok docs /\
    map text docs = map sec_text (split_sections two_sections) /\
    map title docs = map sec_title (split_sections two_sections) /\
    map level docs = map sec_level (split_sections two_sections) /\
    Forall (fun d => sections_count (meta d) = 1) docs.
Proof.
  apply (@one_chunk_per_long_section two_sections [] 5).
  vm_compute. repeat constructor; discriminate.
Defined.

(** X2: every returned chunk is well formed: its text is not empty and
    begins with a heading mark, its title is a heading, its level is at
    least 1, it merges at least one section, [char_count] is the length of
    its text, and the metadata repeat its title, titles and level. *)
Theorem chunks_well_formed md fp min_chunk_size :
  exists docs,
    process_md_content md fp min_chunk_size = Ok docs /\
    Forall (doc_ok fp) docs.
Proof.
  destruct (process_md_content_groups md fp min_chunk_size)
    as (gs & Hcat & Hgs & Hrun).
  exists (map (doc_of_group fp) gs). split; [exact Hrun|].
  pose proof (sections_ok (split NL md)) as Hok.
  fold (split_sections md) in Hok. rewrite <- Hcat in Hok.
  apply concat_Forall in Hok. apply Forall_map.
  clear Hcat Hrun. induction Hgs as [|g gs Hg _ IH]; constructor.
  - inversion Hok; subst. now apply doc_of_group_ok.
  - apply IH. now inversion Hok.
Qed.

(** X3: a chunk that merges two or more sections is at most
    [2 * min_chunk_size] characters long; only a chunk of one section can
    be longer. *)
Theorem merged_chunks_bounded md fp min_chunk_size :
  exists docs,
    process_md_content md fp min_chunk_size = Ok docs /\
    Forall (fun d =>
              2 <= sections_count (meta d) ->
              (Z.of_nat (length (text d)) <= min_chunk_size * 2)%Z) docs.
Proof.
  destruct (process_md_content_groups md fp min_chunk_size)
    as (gs & _ & _ & Hrun).
  eexists. split; [exact Hrun|].
  apply (@merge_sections_within fp min_chunk_size (split_sections md)).
  exact Hrun.
Qed.

(** X4: every section goes into exactly one chunk: the [sections_count] of
    the chunks add up to the number of sections. *)
Theorem sections_counted md fp min_chunk_size :
  exists docs,
    process_md_content md fp min_chunk_size = Ok docs /\
    list_sum (map (fun d => sections_count (meta d)) docs)
    = length (split_sections md).
Proof.
  destruct (process_md_content_groups md fp min_chunk_size)
    as (gs & Hcat & _ & Hrun).
  eexists. split; [exact Hrun|]. rewrite <- Hcat. clear.
  induction gs as [|g gs IH]; [reflexivity|].
  cbn [map list_sum concat fold_right]. rewrite length_app.
  unfold list_sum in IH. rewrite IH. reflexivity.
Qed.

End ChunkerExtras.

(** ** Properties of [chunk_text] *)

Module TextChunksExtras.
Import PyMore TextChunks TextChunksFacts.

(** X5: with [0 <= overlap < chunk_size] (as with the defaults 1000 and
    200) [chunk_text] returns, after at most as many iterations as the text
    has characters; it returns at least one chunk, every chunk is at most
    [chunk_size] long and every chunk but the last is exactly that long, and
    the first chunk followed by the later chunks without their first
    [overlap] characters is the text. *)
Theorem chunk_text_covers (text : str) (chunk_size overlap : Z) (fuel : nat) :
  (0 <= overlap < chunk_size)%Z ->
  length text <= fuel ->
  exists chunks,
    chunk_text fuel text chunk_size overlap = Some chunks /\
    chunks <> [] /\
    Forall (fun c => (Z.of_nat (length c) <= chunk_size)%Z) chunks /\
    Forall (fun c => Z.of_nat (length c) = chunk_size) (removelast chunks) /\
    unoverlap (Z.to_nat overlap) chunks = text.
Proof.
  intros Hov Hfuel. unfold chunk_text.
  destruct (Z.leb_spec (Z.of_nat (length text)) chunk_size) as [Hshort|Hlong].
  - exists [text]. repeat split; try discriminate.
    + constructor; [exact Hshort | constructor].
    + constructor.
    + cbn. apply app_nil_r.
  - destruct (@chunk_loop_covers text (Z.to_nat chunk_size) (Z.to_nat overlap)
                fuel 0) as (chunks & Erun & Hne & Hlen & Hfull & Hcover);
      [lia | lia | lia |].
    rewrite !Z2Nat.id in Erun by lia.
    exists chunks. split; [exact Erun|]. split; [exact Hne|].
    repeat split.
    + eapply Forall_impl; [|exact Hlen]. intros c Hc. cbv beta in Hc. lia.
    + eapply Forall_impl; [|exact Hfull]. intros c Hc. cbv beta in Hc. lia.
    + specialize (Hcover 0 (Nat.le_0_l _)).
      destruct chunks as [|c r]; [congruence|]. exact Hcover.
Qed.

Lemma chunk_text_covers_witness :
  exists chunks,
    chunk_text 10 (lit "abcdefghij") 4 1 = Some chunks /\
    chunks <> [] /\
    Forall (fun c => (Z.of_nat (length c) <= 4)%Z) chunks /\
    Forall (fun c => Z.of_nat (length c) = 4%Z) (removelast chunks) /\
    unoverlap (Z.to_nat 1) chunks = lit "abcdefghij".
Proof.
  apply (@chunk_text_covers (lit "abcdefghij") 4 1 10).
  - lia.
  - cbn. lia.
Defined.

Example chunk_text_three_chunks :
  chunk_text 10 (lit "abcdefghij") 4 1
  = Some [lit "abcd"; lit "defg"; lit "ghij"].
Proof. reflexivity. Qed.

(** X6: with an overlap that is not smaller than the chunk size, on a text
    longer than the chunk size, the loop never ends: the start position
    does not advance, and no number of iterations gives a result. *)
Theorem chunk_text_diverges (text : str) (chunk_size overlap : Z) :
  (chunk_size <= overlap)%Z ->
  (chunk_size < Z.of_nat (length text))%Z ->
  text <> [] ->
  forall fuel, chunk_text fuel text chunk_size overlap = None.
Proof.
  intros Hov Hcs Hne fuel. unfold chunk_text.
  replace (Z.of_nat (length text) <=? chunk_size)%Z with false
    by (symmetry; apply Z.leb_gt; lia).
  apply chunk_loop_stuck; try lia.
  destruct text; [congruence | cbn [length]; lia].
Qed.

Lemma chunk_text_diverges_witness :
  chunk_text 1000 (lit "abc") 2 2 = None.
Proof.
  apply (@chunk_text_diverges (lit "abc") 2 2).
  - lia.
  - cbn. lia.
  - discriminate.
Defined.

End TextChunksExtras.

(** ** Further properties of the index build and of saving *)

Module BuildExtras.
Import VectorDatabase VectorDatabaseSpec VectorDatabaseFacts BuildFacts.
Import Persistence Examples MoreExamples.

(** X7: [build_index] makes at most three embedding requests for each
    chunk of the content. *)
Theorem build_requests_bounded {F} `{Scalar F}
  (service : nat -> str -> result (list F))
  (self : vdb) (content_list : list content_data) (w : world) :
  exists docs,
    foldM collect content_list [] = Ok docs /\
    requests w
    <= requests (snd (build_index service self content_list w))
    <= requests w + 3 * length docs.
Proof.
  destruct (collect_total content_list []) as (docs & Edocs).
  exists docs. split; [exact Edocs|].
  unfold build_index, embed_all. rewrite Edocs.
  pose proof (embed_docs_requests service docs
                {| g_embeddings := []; g_texts := []; g_metadata := [] |} w)
    as Hb.
  destruct (fold_left _ docs _) as [g w']. exact Hb.
Qed.

(** X8: when [build_index] returns [True], the object holds an index and
    parallel arrays: as many texts, metadata entries and embeddings as the
    index has vectors, at least one, each text being the text of the
    metadata entry at its position, and every stored vector has the
    dimension of the index. *)
Theorem built_arrays_parallel {F} `{Scalar F}
  (service : nat -> str -> result (list F))
  (self self' : vdb) (content_list : list content_data) (w w' : world) :
  build_index service self content_list w = (Ok (true, self'), w') ->
  exists idx,
    index self' = Some idx /\
    model_name self' = model_name self /\
    texts self' = map Chunker.text (metadata self') /\
    length (texts self') = Faiss.ntotal idx /\
    length (metadata self') = Faiss.ntotal idx /\
    length (embeddings self') = Faiss.ntotal idx /\
    0 < Faiss.ntotal idx /\
    Forall (fun row => length row = Faiss.d idx) (Faiss.xb idx).
Proof. apply build_index_true. Qed.

Lemma built_arrays_parallel_witness :
  exists idx,
    index built_database = Some idx /\
    model_name built_database = model_name new_database /\
    texts built_database = map Chunker.text (metadata built_database) /\
    length (texts built_database) = Faiss.ntotal idx /\
    length (metadata built_database) = Faiss.ntotal idx /\
    length (embeddings built_database) = Faiss.ntotal idx /\
    0 < Faiss.ntotal idx /\
    Forall (fun row => length row = Faiss.d idx) (Faiss.xb idx).
Proof.
  apply (@built_arrays_parallel Q _ flaky new_database built_database
           two_files fresh
           (snd (build_index flaky new_database two_files fresh))).
  vm_compute. reflexivity.
Defined.

(** X9: when no file of the content has a heading line (or the content is
    empty), [build_index] returns [False] without any embedding request,
    and the object is unchanged. *)
Theorem build_without_headings {F} `{Scalar F}
  (service : nat -> str -> result (list F))
  (self : vdb) (content_list : list content_data) (w : world) :
  Forall no_heading content_list ->
  build_index service self content_list w = (Ok (false, self), w).
Proof.
  intros Hall. unfold build_index.
  rewrite (collect_no_heading _ Hall). reflexivity.
Qed.

Lemma build_without_headings_witness :
  build_index unreachable new_database [plain_file] fresh
  = (Ok (false, new_database), fresh).
Proof.
  apply (@build_without_headings Q _ unreachable new_database [plain_file]).
  repeat constructor.
Defined.

(** X10: [load_database] gives back what [save_database] wrote: the index,
    the texts and the metadata of the saved object, whatever the directory
    held before; the model name and the embeddings of the loading object
    stay its own, the configuration is not consulted. *)
Theorem save_load_round_trip {F}
  (write_no_index : result (file (Faiss.IndexFlatIP F)))
  (self other : vdb) (dir : directory (Faiss.IndexFlatIP F))
  (idx : Faiss.IndexFlatIP F) :
  index self = Some idx ->
  fst (save_database write_no_index self dir) = Ok tt /\
  load_database other (snd (save_database write_no_index self dir))
  = Ok {| model_name := model_name other;
          index := Some idx;
          texts := texts self;
          metadata := metadata self;
          embeddings := embeddings other |}.
Proof.
  intros Hidx. unfold save_database. rewrite Hidx. split; reflexivity.
Qed.

Lemma save_load_round_trip_witness :
  fst (save_database no_index_fails built_database empty_directory) = Ok tt /\
  load_database new_database
    (snd (save_database no_index_fails built_database empty_directory))
  = Ok {| model_name := model_name new_database;
          index := Some {| Faiss.d := 2; Faiss.xb := [[1; 0]%Q] |};
          texts := texts built_database;
          metadata := metadata built_database;
          embeddings := embeddings new_database |}.
Proof.
  apply (@save_load_round_trip Q no_index_fails built_database new_database
           empty_directory).
  reflexivity.
Defined.

(** X11: a database that [build_index] built and [save_database] saved is
    complete: [RAGChatbot.load_vector_database] reads the four files, the
    configuration gives the model name, the dimension and the number of
    vectors of the index read, and there are as many texts and metadata
    entries as vectors. *)
Theorem built_database_loads {F} `{Scalar F}
  (service : nat -> str -> result (list F))
  (write_no_index : result (file (Faiss.IndexFlatIP F)))
  (self self' : vdb) (content_list : list content_data) (w w' : world)
  (dir : directory (Faiss.IndexFlatIP F)) :
  build_index service self content_list w = (Ok (true, self'), w') ->
  exists idx c,
    RAGChatbot.load_vector_database
      (snd (save_database write_no_index self' dir))
    = Ok (idx, texts self', metadata self', c) /\
    cfg_model_name c = model_name self /\
    cfg_dimension c = Z.of_nat (Faiss.d idx) /\
    cfg_total_vectors c = Z.of_nat (Faiss.ntotal idx) /\
    length (texts self') = Faiss.ntotal idx /\
    length (metadata self') = Faiss.ntotal idx.
Proof.
  intros Hbuild.
  destruct (build_index_true _ _ _ _ Hbuild)
    as (idx & Hidx & Hname & _ & Ht & Hm & _).
  exists idx, (config_of self'). unfold save_database. rewrite Hidx.
  cbn [snd]. unfold config_of. rewrite Hidx, Hname.
  repeat split; assumption.
Qed.

Lemma built_database_loads_witness :
  exists idx c,
    RAGChatbot.load_vector_database
      (snd (save_database no_index_fails built_database empty_directory))
    = Ok (idx, texts built_database, metadata built_database, c) /\
    cfg_model_name c = model_name new_database /\
    cfg_dimension c = Z.of_nat (Faiss.d idx) /\
    cfg_total_vectors c = Z.of_nat (Faiss.ntotal idx) /\
    length (texts built_database) = Faiss.ntotal idx /\
    length (metadata built_database) = Faiss.ntotal idx.
Proof.
  apply (@built_database_loads Q _ flaky no_index_fails new_database
           built_database two_files fresh
           (snd (build_index flaky new_database two_files fresh))).
  vm_compute. reflexivity.
Defined.

End BuildExtras.

(** ** Properties of the search *)

Module RetrievalExtras.
Import RAGChatbot RetrievalSpec RetrievalFacts Examples.

(** X12: on a flat index whose texts and metadata cover its vectors, a
    query of the right dimension with [top_k > 0] raises nothing and
    returns [min top_k ntotal] hits, all of them when [top_k] exceeds the
    number of vectors and none for an empty index; the hits are ranked
    1, 2, ... and stand for distinct stored vectors, each with the text and
    metadata at the position of its vector and its inner product with the
    normalised query as similarity. *)
Theorem search_returns_nearest {F} `{Scalar F}
  (embeddings_create : str -> str -> result (list F))
  (self : chatbot (I:=Faiss.IndexFlatIP F)) (query : str) (top_k : Z)
  (v : list F) :
  embeddings_create query (embedding_model self) = Ok v ->
  length v = Faiss.d (index self) ->
  (0 < top_k)%Z ->
  Faiss.ntotal (index self) <= length (texts self) ->
  Faiss.ntotal (index self) <= length (metadata self) ->
  exists entries hits,
    search_similar_documents embeddings_create self query top_k = Ok hits /\
    length hits = Nat.min (Z.to_nat top_k) (Faiss.ntotal (index self)) /\
    map (@rank F) hits = seq 1 (length hits) /\
    NoDup (map snd entries) /\
    Forall (neighbour_of (index self) (normalize_L2 v)) entries /\
    Forall2 (hit_of self) entries hits.
Proof.
  intros Hv Hd Hk Ht Hm.
  rewrite (search_flat_loop _ _ _ Hv Hd Hk). unfold Faiss.top.
  destruct (ranked_neighbours (index self) (normalize_L2 v))
    as (Hlen & Hnodup & Hall).
  set (R := Faiss.ranked (index self) (normalize_L2 v)) in *.
  set (k := Z.to_nat top_k).
  assert (Hfirst : Forall (neighbour_of (index self) (normalize_L2 v))
                          (firstn k R)).
  { rewrite <- (firstn_skipn k R) in Hall. now apply Forall_app in Hall. }
  assert (Hvalid : Forall (entry_valid self) (firstn k R)).
  { eapply Forall_impl; [|exact Hfirst].
    intros e (n & x & Hn & Hx & _). exists n. split; [exact Hn|].
    assert (n < Faiss.ntotal (index self)).
    { unfold Faiss.ntotal. apply nth_error_Some. congruence. }
    lia. }
  destruct (@collect_valid _ _ self (firstn k R) 0 [] Hvalid)
    as (hits & Erun & Hhits & Hranks).
  exists (firstn k R), hits.
  rewrite enumerate_app, foldM_app, Erun. cbn [bind app].
  rewrite collect_padding.
  pose proof (Forall2_length Hhits) as Hl.
  repeat split.
  - rewrite <- Hl, length_firstn, Hlen. reflexivity.
  - rewrite Hranks, Hl. reflexivity.
  - rewrite <- firstn_map. now apply NoDup_firstn.
  - exact Hfirst.
  - exact Hhits.
Qed.

Lemma search_returns_nearest_witness :
  exists entries hits,
    search_similar_documents two_dim sample_bot (lit "q") 5 = Ok hits /\
    length hits = Nat.min (Z.to_nat 5) (Faiss.ntotal (index sample_bot)) /\
    map (@rank Q) hits = seq 1 (length hits) /\
    NoDup (map snd entries) /\
    Forall (neighbour_of (index sample_bot) (normalize_L2 [1; 0]%Q)) entries /\
    Forall2 (hit_of sample_bot) entries hits.
Proof.
  apply (@search_returns_nearest Q _ two_dim sample_bot (lit "q") 5 [1; 0]%Q).
  - reflexivity.
  - reflexivity.
  - lia.
  - cbn. lia.
  - cbn. lia.
Defined.

(** X13: on a flat index with more vectors than texts, a query of the
    right dimension that asks for at least as many neighbours as there are
    vectors raises [IndexError]. *)
Theorem search_beyond_texts {F} `{Scalar F}
  (embeddings_create : str -> str -> result (list F))
  (self : chatbot (I:=Faiss.IndexFlatIP F)) (query : str) (top_k : Z)
  (v : list F) :
  embeddings_create query (embedding_model self) = Ok v ->
  length v = Faiss.d (index self) ->
  (0 < top_k)%Z ->
  (Z.of_nat (Faiss.ntotal (index self)) <= top_k)%Z ->
  length (texts self) < Faiss.ntotal (index self) ->
  search_similar_documents embeddings_create self query top_k
  = Raise IndexError.
Proof.
  intros Hv Hd Hk Hall Hshort.
  rewrite (search_flat_loop _ _ _ Hv Hd Hk). unfold Faiss.top.
  destruct (ranked_neighbours (index self) (normalize_L2 v))
    as (Hlen & Hnodup & Hnb).
  set (R := Faiss.ranked (index self) (normalize_L2 v)) in *.
  pose proof (@collect_outcome _ _ self
                (enumerate 0 (firstn (Z.to_nat top_k) R
                              ++ repeat (fpad, (-1)%Z)
                                   (Z.to_nat top_k - length R))) [])
    as Hout.
  destruct (foldM _ _ _) as [hits|e]; [exfalso | now subst].
  rewrite firstn_all2 in Hout by lia.
  clearbody R.
  rewrite <- (enumerate_snd R 0) in Hnb.
  rewrite <- (enumerate_snd R 0) in Hnodup.
  rewrite enumerate_app in Hout. apply Forall_app in Hout as [Hout _].
  (* every label would be a position of the texts: too many of them *)
  assert (Hincl : incl (map snd (map snd (enumerate 0 R)))
                       (map Z.of_nat (seq 0 (length (texts self))))).
  { intros z Hz. apply in_map_iff in Hz as (e & <- & He).
    apply in_map_iff in He as (ie & <- & Hie).
    rewrite Forall_forall in Hout, Hnb.
    destruct (Hnb (snd ie)) as (n & x & Hn & _); [now apply in_map|].
    destruct (Hout ie Hie) as [Hpad|(t & Et)]; [lia|].
    rewrite Hn in *. apply in_map, in_seq.
    destruct (Nat.lt_ge_cases n (length (texts self))) as [Hlt|Hge]; [lia|].
    rewrite (index_beyond _ Hge) in Et. discriminate. }
  apply NoDup_incl_length in Hincl; [|exact Hnodup].
  rewrite !length_map, length_seq in Hincl.
  rewrite <- (enumerate_snd R 0), length_map in Hlen. lia.
Qed.

(** A chatbot whose index holds two vectors and whose texts hold one. *)
Lemma search_beyond_texts_witness :
  search_similar_documents two_dim
    {| chat_model := chat_model sample_bot;
       embedding_model := embedding_model sample_bot;
       index := index sample_bot;
       texts := [lit "# A"];
       metadata := metadata sample_bot;
       cfg := cfg sample_bot;
       conversation_history := [] |} (lit "q") 5
  = Raise IndexError.
Proof.
  apply (@search_beyond_texts Q _ two_dim _ (lit "q") 5 [1; 0]%Q).
  - reflexivity.
  - reflexivity.
  - lia.
  - cbn. lia.
  - cbn. lia.
Defined.

End RetrievalExtras.

(** ** Properties of the conversation and of the context *)

Module ConversationExtras.
Import RAGChatbot ConversationSpec ConversationFacts Examples.

(** X14: a call of [chat] that completes keeps the transcript made of
    exchanges (a user message, then the assistant's), adds two messages to
    it, and changes nothing else of the object. *)
Theorem chat_keeps_transcript {I F} `{Scalar F} `{VectorIndex I F}
  (embeddings_create : str -> str -> result (list F))
  (completions_create : str -> list message -> result str) (now : str)
  (self self' : chatbot) (user_query : str) (out : reply F) :
  alternating (conversation_history self) ->
  chat embeddings_create completions_create now self user_query
    = Ok (out, self') ->
  alternating (conversation_history self') /\
  length (conversation_history self')
    = length (conversation_history self) + 2 /\
  index self' = index self /\ texts self' = texts self /\
  metadata self' = metadata self /\ cfg self' = cfg self /\
  chat_model self' = chat_model self /\
  embedding_model self' = embedding_model self.
Proof.
  intros Halt. unfold chat.
  destruct (search_similar_documents embeddings_create self user_query 5)
    as [docs|e]; cbn [bind]; [|discriminate].
  intros E. injection E as _ <-.
  cbn [record_turns conversation_history index texts metadata cfg
       chat_model embedding_model].
  rewrite <- app_assoc. cbn [app]. repeat split.
  - now apply alternating_app.
  - rewrite length_app. cbn [length]. lia.
Qed.

Lemma chat_keeps_transcript_witness :
  let self' :=
    record_turns sample_bot (lit "q") (generation_failed ++ lit "timeout") in
  alternating (conversation_history self') /\
  length (conversation_history self')
    = length (conversation_history sample_bot) + 2 /\
  index self' = index sample_bot /\ texts self' = texts sample_bot /\
  metadata self' = metadata sample_bot /\ cfg self' = cfg sample_bot /\
  chat_model self' = chat_model sample_bot /\
  embedding_model self' = embedding_model sample_bot.
Proof.
  cbv zeta.
  eapply (@chat_keeps_transcript _ Q _ _ two_dim down
            (lit "2025-01-01T00:00:00") sample_bot).
  - constructor.
  - vm_compute. reflexivity.
Defined.

(** X15: on a transcript made of exchanges, the history that goes into the
    prompt is a trailing part of it of at most 10 messages that is itself
    made of whole exchanges: it starts with a user message, and no exchange
    is cut in two. *)
Theorem prompt_window_alternates (user_query context : str)
  (history : list message) :
  alternating history ->
  exists older window,
    history = older ++ window /\
    alternating window /\
    length window <= 10 /\
    messages_for user_query context (Some history)
    = system_message (system_prompt_format context)
        :: window ++ [user_message user_query].
Proof.
  intros Halt.
  exists (firstn (length history - 10) history), (last_n 10 history).
  repeat split.
  - unfold last_n. now rewrite firstn_skipn.
  - now apply alternating_last_n.
  - unfold last_n. rewrite length_skipn. lia.
  - unfold messages_for. destruct history; reflexivity.
Qed.

Lemma prompt_window_alternates_witness :
  exists older window,
    [user_message (lit "a"); assistant_message (lit "b")] = older ++ window /\
    alternating window /\
    length window <= 10 /\
    messages_for (lit "q") []
      (Some [user_message (lit "a"); assistant_message (lit "b")])
    = system_message (system_prompt_format [])
        :: window ++ [user_message (lit "q")].
Proof.
  apply (@prompt_window_alternates (lit "q") []
           [user_message (lit "a"); assistant_message (lit "b")]).
  repeat constructor.
Defined.

(** X16: the context of no document is empty, and the context of a list of
    documents holds the text of each of them: nothing retrieved is left
    out. *)
Theorem context_holds_every_text {F} (before after : list (hit F))
  (h : hit F) :
  generate_context_from_documents (@nil (hit F)) = [] /\
  exists pre post,
    generate_context_from_documents (before ++ h :: after)
    = pre ++ hit_text h ++ post.
Proof.
  split; [reflexivity|].
  unfold generate_context_from_documents.
  match goal with
  | |- context [map ?f (before ++ h :: after)] => set (block := f)
  end.
  rewrite map_app.
  change (map block (h :: after)) with (block h :: map block after).
  destruct (join_middle context_separator (map block before) (block h)
              (map block after)) as (pre & post & E).
  exists (pre ++ source_info (hit_metadata h) ++ [NL]), ([NL] ++ post).
  transitivity (pre ++ block h ++ post); [exact E|].
  unfold block. now rewrite <- !app_assoc.
Qed.

End ConversationExtras.

(** ** Properties of the lists of databases and of parsed files *)

Module ListingExtras.
Import PyMore Databases DatabasesFacts.
Import VectorDatabase ParsedContent ParsedContentFacts Examples.

(** X17: a directory of the working directory named ["vector_db_"]
    followed by [n] is listed, under its own path and under the name [n]
    with every occurrence of ["vector_db_"] removed: the name is [n] itself
    when ["vector_db_"] does not occur in [n]. *)
Theorem named_database_listed (w : cwd) (i : item) (n : str) :
  In i (items w) ->
  item_isdir i = true ->
  item_name i = PREFIX ++ n ->
  In {| db_name := remove_all PREFIX n; db_path := PREFIX ++ n |}
     (get_available_databases w) /\
  (free_of PREFIX n -> remove_all PREFIX n = n).
Proof.
  intros Hin Hdir Hname. split; [|apply remove_all_free].
  unfold get_available_databases. apply in_or_app. right.
  apply in_flat_map. exists i. split; [exact Hin|].
  unfold named. rewrite Hname, startswith_app, Hdir. cbn [andb].
  left. f_equal; apply remove_all_prefix; discriminate.
Qed.

Lemma named_database_listed_witness :
  In {| db_name := remove_all PREFIX (lit "finance");
        db_path := PREFIX ++ lit "finance" |}
     (get_available_databases
        {| default_exists := true;
           items := [ {| item_name := lit "README.md"; item_isdir := false |};
                      {| item_name := lit "vector_db_finance";
                         item_isdir := true |} ] |}) /\
  (free_of PREFIX (lit "finance") ->
   remove_all PREFIX (lit "finance") = lit "finance").
Proof.
  apply (@named_database_listed _
           {| item_name := lit "vector_db_finance"; item_isdir := true |}).
  - right. left. reflexivity.
  - reflexivity.
  - reflexivity.
Defined.

Example names_collide :
  map db_name
    (get_available_databases
       {| default_exists := false;
          items := [ {| item_name := lit "vector_db_x"; item_isdir := true |};
                     {| item_name := lit "vector_db_vector_db_x";
                        item_isdir := true |} ] |})
  = [lit "x"; lit "x"].
Proof. reflexivity. Qed.

Lemma load_dirs_skip (walk : list (str * list walked)) : forall acc,
  foldM (fun content_list dir =>
           foldM (load_file (fst dir)) (snd dir) content_list) walk acc
  = foldM (fun content_list dir =>
             foldM (load_file (fst dir)) (snd dir) content_list)
      (map (fun d => (fst d, filter is_markdown (snd d))) walk) acc.
Proof.
  induction walk as [|d walk IH]; intros acc; cbn [foldM map fst snd];
    [reflexivity|].
  rewrite load_files_skip.
  destruct (foldM (load_file (fst d)) (filter is_markdown (snd d)) acc);
    cbn [bind]; [apply IH | reflexivity].
Qed.

Lemma load_dirs_readable (walk : list (str * list walked)) : forall acc,
  Forall (fun d =>
            Forall (fun f => is_markdown f = true ->
                             is_raise (file_text f) = false) (snd d)) walk ->
  foldM (fun content_list dir =>
           foldM (load_file (fst dir)) (snd dir) content_list) walk acc
  = Ok (acc ++ flat_map (fun d => flat_map (entry_of (fst d))
                                    (filter is_markdown (snd d))) walk).
Proof.
  induction walk as [|d walk IH]; intros acc Hall; cbn [foldM flat_map].
  - now rewrite app_nil_r.
  - inversion Hall as [|? ? Hd Hrest]; subst.
    rewrite load_files_readable by assumption. cbn [bind].
    rewrite IH by assumption. now rewrite <- app_assoc.
Qed.

(** X18: [load_parsed_content] reads the files whose name ends in [".md"]
    and no other: the result is the same without the other files, whatever
    reading them would give; when every Markdown file can be read, it is
    one entry per Markdown file, in the order of the walk, with the text of
    the file and its path under its directory. *)
Theorem load_parsed_content_markdown_only (walk : list (str * list walked)) :
  load_parsed_content walk
  = load_parsed_content
      (map (fun d => (fst d, filter is_markdown (snd d))) walk) /\
  (Forall (fun d =>
             Forall (fun f => is_markdown f = true ->
                              is_raise (file_text f) = false) (snd d)) walk ->
   load_parsed_content walk
   = Ok (flat_map (fun d => flat_map (entry_of (fst d))
                              (filter is_markdown (snd d))) walk)).
Proof.
  unfold load_parsed_content. split.
  - apply load_dirs_skip.
  - intros Hall. now rewrite load_dirs_readable.
Qed.

Example load_parsed_content_sample :
  load_parsed_content
    [ (lit "./output",
       [ {| file_name := lit "a_content_list.json";
            file_text := Raise (failure "unreadable") |};
         {| file_name := lit "a.md"; file_text := Ok (lit "# A") |} ]) ]
  = Ok [ {| md_data := Some (lit "# A");
            md_path := Some (lit "./output/a.md") |} ].
Proof. reflexivity. Qed.

End ListingExtras.
